(** * dynamic_graph_manager.device.robot : the [Robot] configuration object

    A shallow embedding of [python/dynamic_graph_manager/device/robot.py].
    The class is glue code: every interesting effect is a call into an
    external collaborator (the tracer, the device's post-step list
    [device.after], the ROS bridge).  The embedding therefore threads

    - the instance attributes of [self],
    - the class-level attributes of [Robot], which all instances share,
    - the ordered record of the external calls that were attempted,

    through a small state-and-exception monad.  External calls may raise;
    which ones do is decided by the environment.  The module-level helper
    [matrixToTuple] and the class attributes no method reads ([init_pos],
    [init_vel], [init_acc], [timeStep]) are left out. *)

From Stdlib Require Import String Ascii List ZArith Bool Arith Lia.
Import ListNotations.
Open Scope string_scope.
Open Scope list_scope.

(* ================================================================== *)
(** ** Python string and path primitives used by the source *)

Module Py.

(** [s.startswith(p)] *)
Definition startswith (s p : string) : bool := String.prefix p s.

(** [s.endswith(suffix)]: some tail of [s] is [suffix]. *)
Fixpoint endswith (s suffix : string) : bool :=
  if String.eqb s suffix then true
  else match s with
       | EmptyString => false
       | String _ s' => endswith s' suffix
       end.

(** [s.split(sep)] for a non-empty [sep]: the separators are the leftmost
    non-overlapping occurrences of [sep].  [skip] counts the characters of
    a separator that has been recognised and is still being consumed. *)
Fixpoint split_from (sep : string) (skip : nat) (s : string) : list string :=
  match s with
  | EmptyString => [EmptyString]
  | String c s' =>
      match skip with
      | S k => split_from sep k s'
      | O =>
          if String.prefix sep s
          then EmptyString :: split_from sep (String.length sep - 1) s'
          else match split_from sep 0 s' with
               | p :: ps => String c p :: ps
               | [] => [String c EmptyString]
               end
      end
  end.

Definition split (s sep : string) : list string := split_from sep 0 s.

(** [l[-1]] on a list of strings ([split] never returns an empty list). *)
Definition last_item (l : list string) : string := List.last l EmptyString.

(** ['{0}.{1}'.format(a, b)] on two [str] arguments. *)
Definition format_dot (a b : string) : string := (a ++ "." ++ b)%string.

(** [posixpath.join(a, *p)] *)
Definition join_step (path b : string) : string :=
  if startswith b "/" then b
  else if orb (String.eqb path "") (endswith path "/") then (path ++ b)%string
  else (path ++ "/" ++ b)%string.

Definition os_path_join (a : string) (p : list string) : string :=
  fold_left join_step p a.

(** A [dict] with string keys, as an association list. *)
Definition dict (V : Type) : Type := list (string * V).

Fixpoint dict_get {V : Type} (d : dict V) (k : string) : option V :=
  match d with
  | [] => None
  | (k', v) :: d' => if String.eqb k k' then Some v else dict_get d' k
  end.

Fixpoint dict_set {V : Type} (d : dict V) (k : string) (v : V) : dict V :=
  match d with
  | [] => [(k, v)]
  | (k', v') :: d' =>
      if String.eqb k k' then (k, v) :: d' else (k', v') :: dict_set d' k v
  end.

End Py.

(* ================================================================== *)
(** ** Data model *)

(** A signal of the dynamic graph, known by its qualified name
    (["Device(robot)::output(vector)::joint_positions"]). *)
Record Signal : Type := { signal_name : string }.

(** The device entity handed to [Robot]: its entity name and the signals that
    [device.signals()] enumerates. *)
Record Device : Type := {
  device_name : string;
  device_signals : list Signal
}.

(** A tracer entity; [tracer_name] is its [.name]. *)
Record Tracer : Type := { tracer_name : string }.

(** The bridge object returned by [Ros(robot)]; only its [rosPublish] entity
    is used by [Robot]. *)
Record Ros : Type := { rosPublish : string }.

(** Instance attributes of a [Robot].  [tracer = None] stands for both
    "no instance attribute" (the class attribute [tracer = None] is then
    read) and "instance attribute set to [None]": the source only ever tests
    the attribute for truth. *)
Record Robot : Type := {
  name : string;
  device : option Device;
  tracer : option Tracer;
  tracedSignals : Py.dict (list string);
  device_signals_names : list string;
  ros : option Ros
}.

(** Every call that leaves the module, with its arguments.  Entities are
    referred to by name, as the dynamic-graph pool does. *)
Inductive Call : Type :=
| TracerRealTime_new (n : string)
| tracer_setBufferSize (t : Tracer) (size : Z)
| rospy_get_param (key : string)
| os_path_expanduser (p : string)
| time_strftime (fmt : string)
| tracer_open (t : Tracer) (dir prefix suffix : string)
| tracer_start (t : Tracer)
| tracer_dump (t : Tracer)
| tracer_stop (t : Tracer)
| tracer_close (t : Tracer)
| tracer_clear (t : Tracer)
| after_addSignal (dev : string) (s : string)
| after_addDownsampledSignal (dev : string) (s : string) (n : Z)
| after_rmSignal (dev : string) (s : string)
| device_signals_call (dev : string)
| device_signal (dev : string) (s : string)
| addTrace (robot : string) (robot_device : option string) (t : Tracer)
           (entityName signalName : string)
| Ros_new (robot : string)
| rosPublish_add (entity : string) (type topic rostopic : string)
| rosPublish_signal (entity : string) (topic : string)
| plug (src dst : Signal).

(** Exceptions: the ones Python itself raises in this file, and whatever an
    external call raised. *)
Inductive Exn : Type :=
| AttributeError
| KeyError
| raised_by (c : Call).

Inductive Res (A : Type) : Type :=
| Ok (a : A)
| Raise (e : Exn).
Arguments Ok {A} a.
Arguments Raise {A} e.

(** The class object [Robot] and the outside world: the class-level
    attributes shared by all instances, and the calls attempted so far. *)
Record World : Type := {
  autoRecomputedSignals : list string;
  tracerSize : Z;
  calls : list Call
}.

(** Class attributes as the [class] statement leaves them. *)
Definition Robot_class : World :=
  {| autoRecomputedSignals := []; tracerSize := 2 ^ 20; calls := [] |}.

(** What the outside answers. [raises h c] tells whether call [c], attempted
    after the calls [h], raises. *)
Record Env : Type := {
  raises : list Call -> Call -> bool;
  param : string -> string;
  expanduser : string -> string;
  strftime : string -> string;
  entity_signal : string -> string -> Signal;
  ros_bridge : string -> Ros
}.

(* ================================================================== *)
(** ** The state-and-exception monad *)

Definition M (A : Type) : Type := Robot * World -> Res A * (Robot * World).

Definition ret {A : Type} (a : A) : M A := fun st => (Ok a, st).

Definition bind {A B : Type} (m : M A) (f : A -> M B) : M B :=
  fun st =>
    match m st with
    | (Ok a, st') => f a st'
    | (Raise e, st') => (Raise e, st')
    end.

Definition raise {A : Type} (e : Exn) : M A := fun st => (Raise e, st).

(** [try: m  except: handler] with a bare [except]. *)
Definition try_except {A : Type} (m : M A) (handler : M A) : M A :=
  fun st =>
    match m st with
    | (Ok a, st') => (Ok a, st')
    | (Raise _, st') => handler st'
    end.

Declare Scope py_scope.
Delimit Scope py_scope with py.
Notation "x <- c1 ;; c2" := (bind c1 (fun x => c2))
  (at level 100, c1 at next level, right associativity) : py_scope.
Notation "c1 ;; c2" := (bind c1 (fun _ => c2))
  (at level 100, right associativity) : py_scope.
Open Scope py_scope.

Definition get_self : M Robot := fun st => (Ok (fst st), st).
Definition get_class : M World := fun st => (Ok (snd st), st).
Definition modify_self (f : Robot -> Robot) : M unit :=
  fun st => (Ok tt, (f (fst st), snd st)).
Definition modify_class (f : World -> World) : M unit :=
  fun st => (Ok tt, (fst st, f (snd st))).

Fixpoint for_each {A : Type} (l : list A) (body : A -> M unit) : M unit :=
  match l with
  | [] => ret tt
  | x :: l' => body x ;; for_each l' body
  end.

(** Attribute assignments on [self]. *)
Definition set_name (v : string) (r : Robot) : Robot :=
  {| name := v; device := device r; tracer := tracer r;
     tracedSignals := tracedSignals r;
     device_signals_names := device_signals_names r; ros := ros r |}.
Definition set_device (v : option Device) (r : Robot) : Robot :=
  {| name := name r; device := v; tracer := tracer r;
     tracedSignals := tracedSignals r;
     device_signals_names := device_signals_names r; ros := ros r |}.
Definition set_tracer (v : option Tracer) (r : Robot) : Robot :=
  {| name := name r; device := device r; tracer := v;
     tracedSignals := tracedSignals r;
     device_signals_names := device_signals_names r; ros := ros r |}.
Definition set_tracedSignals (v : Py.dict (list string)) (r : Robot) : Robot :=
  {| name := name r; device := device r; tracer := tracer r;
     tracedSignals := v;
     device_signals_names := device_signals_names r; ros := ros r |}.
Definition set_device_signals_names (v : list string) (r : Robot) : Robot :=
  {| name := name r; device := device r; tracer := tracer r;
     tracedSignals := tracedSignals r;
     device_signals_names := v; ros := ros r |}.
Definition set_ros (v : option Ros) (r : Robot) : Robot :=
  {| name := name r; device := device r; tracer := tracer r;
     tracedSignals := tracedSignals r;
     device_signals_names := device_signals_names r; ros := v |}.

(** Updates of the class object and of the call record. *)
Definition set_autoRecomputedSignals (v : list string) (w : World) : World :=
  {| autoRecomputedSignals := v; tracerSize := tracerSize w;
     calls := calls w |}.
Definition add_calls (cs : list Call) (w : World) : World :=
  {| autoRecomputedSignals := autoRecomputedSignals w;
     tracerSize := tracerSize w; calls := calls w ++ cs |}.
Definition record_call (c : Call) (w : World) : World := add_calls [c] w.

(** A fresh instance, before [__init__] has assigned anything.  The list
    attributes [tracedSignals] and [device_signals_names] stand as empty
    until [__init__] assigns them; statements about methods that read them
    are made for instances on which they have been assigned. *)
Definition fresh_Robot : Robot :=
  {| name := ""; device := None; tracer := None; tracedSignals := [];
     device_signals_names := []; ros := None |}.

(* ================================================================== *)
(** ** The class [Robot] *)

Definition log_dir_param : string := "/dynamic_graph/log_dir".
Definition timestamp_format : string := "%Y_%m_%d_%H_%M_%S".

Section RobotMethods.

Variable env : Env.

(** An external call: it is recorded, and raises if the environment says
    so. *)
Definition call (c : Call) : M unit :=
  fun st =>
    let st' := (fst st, record_call c (snd st)) in
    if raises env (calls (snd st)) c
    then (Raise (raised_by c), st')
    else (Ok tt, st').

(** [self.device.<attr>]: an [AttributeError] when the device is [None]. *)
Definition self_device : M Device :=
  self <- get_self ;;
  match device self with
  | Some d => ret d
  | None => raise AttributeError
  end.

(** [self.ros.<attr>] *)
Definition self_ros : M Ros :=
  self <- get_self ;;
  match ros self with
  | Some r => ret r
  | None => raise AttributeError
  end.

(** [self.tracedSignals[k]] *)
Definition self_tracedSignals (k : string) : M (list string) :=
  self <- get_self ;;
  match Py.dict_get (tracedSignals self) k with
  | Some l => ret l
  | None => raise KeyError
  end.

Definition rospy_get_param_ (key : string) : M string :=
  call (rospy_get_param key) ;; ret (param env key).

Definition os_path_expanduser_ (p : string) : M string :=
  call (os_path_expanduser p) ;; ret (expanduser env p).

Definition time_strftime_ (fmt : string) : M string :=
  call (time_strftime fmt) ;; ret (strftime env fmt).

(** [TracerRealTime(n)]: a new tracer entity named [n]. *)
Definition TracerRealTime (n : string) : M Tracer :=
  call (TracerRealTime_new n) ;; ret {| tracer_name := n |}.

(** [initialize_tracer] *)
Definition initialize_tracer : M unit :=
  self <- get_self ;;
  match tracer self with
  | Some _ => ret tt
  | None =>
      t <- TracerRealTime "trace" ;;
      modify_self (set_tracer (Some t)) ;;
      cls <- get_class ;;
      call (tracer_setBufferSize t (tracerSize cls)) ;;
      log_dir <-
        try_except
          (rospy_get_param_ log_dir_param)
          (home <- os_path_expanduser_ "~" ;;
           stamp <- time_strftime_ timestamp_format ;;
           ret (Py.os_path_join home [".dynamic_graph_manager"; stamp])) ;;
      call (tracer_open t log_dir "dg_" ".dat") ;;
      d <- self_device ;;
      call (after_addSignal (device_name d)
              (tracer_name t ++ ".triger")%string)
  end.

(** [add_trace] *)
Definition add_trace (entityName signalName : string) : M unit :=
  self <- get_self ;;
  match tracer self with
  | Some t =>
      modify_class (fun w =>
        set_autoRecomputedSignals
          (autoRecomputedSignals w ++ [Py.format_dot entityName signalName])
          w) ;;
      call (addTrace (name self) (option_map device_name (device self))
              t entityName signalName)
  | None => ret tt
  end.

(** [start_tracer] *)
Definition start_tracer : M unit :=
  self <- get_self ;;
  match tracer self with
  | Some t => call (tracer_start t)
  | None => ret tt
  end.

(** [stop_tracer] *)
Definition stop_tracer : M unit :=
  self <- get_self ;;
  match tracer self with
  | Some t =>
      call (tracer_dump t) ;;
      call (tracer_stop t) ;;
      call (tracer_close t) ;;
      call (tracer_clear t) ;;
      cls <- get_class ;;
      for_each (autoRecomputedSignals cls) (fun s =>
        d <- self_device ;;
        call (after_rmSignal (device_name d) s)) ;;
      modify_self (set_tracer None)
  | None => ret tt
  end.

(** [__del__] *)
Definition __del__ : M unit :=
  self <- get_self ;;
  match tracer self with
  | Some _ => stop_tracer
  | None => ret tt
  end.

(** [export_signal_to_ros] *)
Definition export_signal_to_ros (signal : Signal)
    (topic_name : option string) : M unit :=
  let topic_name :=
    match topic_name with
    | None => signal_name signal
    | Some t => t
    end in
  r <- self_ros ;;
  call (rosPublish_add (rosPublish r) "vector" topic_name
          ("/dg__" ++ topic_name)%string) ;;
  r <- self_ros ;;
  call (rosPublish_signal (rosPublish r) topic_name) ;;
  call (plug signal (entity_signal env (rosPublish r) topic_name)).

(** [export_device_dg_to_ros] *)
Definition export_device_dg_to_ros : M unit :=
  self <- get_self ;;
  for_each (device_signals_names self) (fun sig_name =>
    d <- self_device ;;
    call (device_signal (device_name d) sig_name) ;;
    export_signal_to_ros (entity_signal env (device_name d) sig_name)
      (Some ("device__" ++ sig_name)%string)).

(** The short name [signal.name.split('::')[-1]]. *)
Definition short_name (signal : Signal) : string :=
  Py.last_item (Py.split (signal_name signal) "::").

(** [__init__] *)
Definition __init__ (name_ : string) (device_ : option Device)
    (tracer_ : option Tracer) : M unit :=
  modify_self (set_name name_) ;;
  modify_self (set_device device_) ;;
  match tracer_ with (* [if tracer:], an entity object being truthy *)
  | Some t => modify_self (set_tracer (Some t))
  | None => ret tt
  end ;;
  initialize_tracer ;;
  modify_self (set_tracedSignals [("device", [])]) ;;
  modify_self (set_device_signals_names []) ;;
  d <- self_device ;;
  call (device_signals_call (device_name d)) ;;
  for_each (device_signals d) (fun signal =>
    let signal_name := short_name signal in
    l <- self_tracedSignals "device" ;;
    modify_self (fun r =>
      set_tracedSignals
        (Py.dict_set (tracedSignals r) "device" (l ++ [signal_name])) r) ;;
    modify_self (fun r =>
      set_device_signals_names
        (device_signals_names r ++ [signal_name]) r)) ;;
  l <- self_tracedSignals "device" ;;
  for_each l (fun s =>
    d <- self_device ;;
    add_trace (device_name d) s) ;;
  self <- get_self ;;
  call (Ros_new (name self)) ;;
  modify_self (set_ros (Some (ros_bridge env (name self)))) ;;
  d <- self_device ;;
  call (after_addDownsampledSignal (device_name d) "rosPublish.trigger" 1) ;;
  export_device_dg_to_ros.

(** [Robot(name, device, tracer)]: [__init__] on a fresh instance. *)
Definition Robot_new (name_ : string) (device_ : option Device)
    (tracer_ : option Tracer) (w : World) : Res unit * (Robot * World) :=
  __init__ name_ device_ tracer_ (fresh_Robot, w).

End RobotMethods.

(* ================================================================== *)
(** ** The device's post-step list, as the recorded calls leave it

    [device.after] is a name-keyed collection owned by the device:
    [addSignal] and [addDownsampledSignal] enter a name, [rmSignal] erases
    it.  [dynamic_graph.tools.addTrace] registers ["<entity>.<signal>"] with
    the tracer and schedules that name in [robot.device.after], which is why
    [add_trace] records the same name for later cleanup. *)

Definition after_add (s : string) (l : list string) : list string :=
  if existsb (String.eqb s) l then l else l ++ [s].

Definition after_rm (s : string) (l : list string) : list string :=
  filter (fun x => negb (String.eqb s x)) l.

Definition after_step (dev : string) (l : list string) (c : Call)
    : list string :=
  match c with
  | after_addSignal d s =>
      if String.eqb d dev then after_add s l else l
  | after_addDownsampledSignal d s _ =>
      if String.eqb d dev then after_add s l else l
  | addTrace _ (Some d) _ e s =>
      if String.eqb d dev then after_add (Py.format_dot e s) l else l
  | after_rmSignal d s =>
      if String.eqb d dev then after_rm s l else l
  | _ => l
  end.

(** The post-step list of device [dev] after the calls [cs], from [l]. *)
Definition after_run (dev : string) (cs : list Call) (l : list string)
    : list string :=
  fold_left (after_step dev) cs l.

(** Classifiers used to count calls. *)
Definition is_addTrace (c : Call) : bool :=
  match c with addTrace _ _ _ _ _ => true | _ => false end.
Definition is_rosPublish_add (c : Call) : bool :=
  match c with rosPublish_add _ _ _ _ => true | _ => false end.
Definition is_plug (c : Call) : bool :=
  match c with plug _ _ => true | _ => false end.
Definition is_after_rmSignal (c : Call) : bool :=
  match c with after_rmSignal _ _ => true | _ => false end.
Definition is_tracer_call (c : Call) : bool :=
  match c with
  | TracerRealTime_new _ | tracer_setBufferSize _ _ | tracer_open _ _ _ _
  | tracer_start _ | tracer_dump _ | tracer_stop _ | tracer_close _
  | tracer_clear _ => true
  | _ => false
  end.

Definition count_calls (p : Call -> bool) (cs : list Call) : nat :=
  length (filter p cs).

(** The calls recorded by a run that went from world [w] to world [w']. *)
Definition new_calls (w w' : World) : list Call :=
  skipn (length (calls w)) (calls w').

(** ** Environments

    [calls_succeed]: the only call that may raise is the lookup of the log
    directory parameter. *)
Definition is_log_dir_lookup (c : Call) : bool :=
  match c with
  | rospy_get_param k => String.eqb k log_dir_param
  | _ => false
  end.

Definition calls_succeed (env : Env) : Prop :=
  forall h c, raises env h c = true -> is_log_dir_lookup c = true.

(** ** The call sequences of the methods, written out *)

Definition the_trace : Tracer := {| tracer_name := "trace" |}.

(** The local default path of [initialize_tracer]. *)
Definition fallback_log_dir (env : Env) : string :=
  Py.os_path_join (expanduser env "~")
    [".dynamic_graph_manager"; strftime env timestamp_format].

(** Resolving the log directory after the calls [h]: the calls made and the
    directory obtained. *)
Definition resolve_log_dir (env : Env) (h : list Call)
    : list Call * string :=
  if raises env h (rospy_get_param log_dir_param)
  then ([rospy_get_param log_dir_param; os_path_expanduser "~";
         time_strftime timestamp_format],
        fallback_log_dir env)
  else ([rospy_get_param log_dir_param], param env log_dir_param).

Definition create_tracer_calls (size : Z) : list Call :=
  [TracerRealTime_new "trace"; tracer_setBufferSize the_trace size].

Definition initialize_tracer_calls (env : Env) (w : World) (dev : string)
    : list Call :=
  let pre := create_tracer_calls (tracerSize w) in
  pre ++ fst (resolve_log_dir env (calls w ++ pre))
      ++ [tracer_open the_trace (snd (resolve_log_dir env (calls w ++ pre)))
            "dg_" ".dat";
          after_addSignal dev "trace.triger"].

Definition export_calls (env : Env) (dev pub : string) (s : string)
    : list Call :=
  [device_signal dev s;
   rosPublish_add pub "vector" ("device__" ++ s)%string
     ("/dg__device__" ++ s)%string;
   rosPublish_signal pub ("device__" ++ s)%string;
   plug (entity_signal env dev s)
        (entity_signal env pub ("device__" ++ s)%string)].

Definition stop_tracer_calls (t : Tracer) (dev : string) (l : list string)
    : list Call :=
  [tracer_dump t; tracer_stop t; tracer_close t; tracer_clear t]
    ++ map (after_rmSignal dev) l.

(** The calls of [Robot(n, d, tr)] run in world [w]. *)
Definition construction_calls (env : Env) (w : World) (n : string)
    (d : Device) (tr : option Tracer) : list Call :=
  let dev := device_name d in
  let shorts := map short_name (device_signals d) in
  let t := match tr with Some t => t | None => the_trace end in
  match tr with
  | Some _ => []
  | None => initialize_tracer_calls env w dev
  end
  ++ [device_signals_call dev]
  ++ map (addTrace n (Some dev) t dev) shorts
  ++ [Ros_new n; after_addDownsampledSignal dev "rosPublish.trigger" 1]
  ++ flat_map (export_calls env dev (rosPublish (ros_bridge env n))) shorts.

(** The instance [Robot(n, d, tr)] leaves behind. *)
Definition constructed (env : Env) (n : string) (d : Device)
    (tr : option Tracer) : Robot :=
  let shorts := map short_name (device_signals d) in
  {| name := n;
     device := Some d;
     tracer := Some (match tr with Some t => t | None => the_trace end);
     tracedSignals := [("device", shorts)];
     device_signals_names := shorts;
     ros := Some (ros_bridge env n) |}.

(** The entries [Robot(n, d, tr)] records for cleanup. *)
Definition recorded_entries (d : Device) : list string :=
  map (fun sg => Py.format_dot (device_name d) (short_name sg))
      (device_signals d).

(** [sep] occurs somewhere in [s]. *)
Definition occurs (sep s : string) : Prop :=
  exists a b, s = (a ++ sep ++ b)%string.

(** ** Exception discipline

    [only_lookup_raised env h seg]: among the calls [seg], attempted one
    after the other after the calls [h], the only ones that raised are
    lookups of the log directory parameter. *)
Fixpoint only_lookup_raised (env : Env) (h seg : list Call) : bool :=
  match seg with
  | [] => true
  | c :: seg' =>
      (negb (raises env h c) || is_log_dir_lookup c)
      && only_lookup_raised env (h ++ [c]) seg'
  end.

(** What one run that attempted the calls [seg] after [h] and ended in
    [res] must satisfy for "nothing but the lookup failure is caught".
    Either no call other than the lookup raised, and then the run returned
    or raised an exception of its own making, not one it attributes to a
    call.  Or some other call raised: that call is the last one attempted,
    everything before it was quiet, and its exception is the one that
    leaves the method. *)
Definition uncaught {A : Type} (env : Env) (h seg : list Call)
    (res : Res A) : Prop :=
  (only_lookup_raised env h seg = true /\
   forall c, res <> Raise (raised_by c))
  \/
  (exists pre c,
     seg = pre ++ [c] /\
     only_lookup_raised env h pre = true /\
     raises env (h ++ pre) c = true /\
     is_log_dir_lookup c = false /\
     res = Raise (raised_by c)).

(** [m] only appends to the call record and lets every exception but the
    lookup failure through. *)
Definition propagates {A : Type} (env : Env) (m : M A) : Prop :=
  forall st,
    exists seg,
      calls (snd (snd (m st))) = calls (snd st) ++ seg /\
      uncaught env (calls (snd st)) seg (fst (m st)).

(** ** Sample data *)

Definition sample_env (lookup_raises : bool) : Env :=
  {| raises := fun _ c => andb lookup_raises (is_log_dir_lookup c);
     param := fun _ => "/tmp/logs";
     expanduser := fun _ => "/home/user";
     strftime := fun _ => "2020_01_02_03_04_05";
     entity_signal := fun e s => {| signal_name := (e ++ "::" ++ s)%string |};
     ros_bridge := fun _ => {| rosPublish := "rosPublish" |} |}.

Definition sample_device : Device :=
  {| device_name := "dev";
     device_signals :=
       [ {| signal_name := "Device(dev)::output(vector)::joint_positions" |};
         {| signal_name := "Device(dev)::input(vector)::ctrl" |} ] |}.

Definition other_device : Device :=
  {| device_name := "arm";
     device_signals := [ {| signal_name := "Device(arm)::output(vector)::q" |} ] |}.

Definition injected_tracer : Tracer := {| tracer_name := "mytrace" |}.

Definition sample_robot : Robot :=
  constructed (sample_env false) "r" sample_device None.

(** [m] leaves the class-level cleanup list as it found it. *)
Definition keeps_cleanup_list {A : Type} (m : M A) : Prop :=
  forall st,
    autoRecomputedSignals (snd (snd (m st))) = autoRecomputedSignals (snd st).

(** [m] only ever appends to the class-level cleanup list. *)
Definition appends_to_cleanup_list {A : Type} (m : M A) : Prop :=
  forall st,
    exists ext,
      autoRecomputedSignals (snd (snd (m st)))
      = autoRecomputedSignals (snd st) ++ ext.

(** [m] returns [self] with the attributes it had, on a normal return
    and on an exception alike. *)
Definition keeps_instance {A : Type} (m : M A) : Prop :=
  forall st, fst (snd (m st)) = fst st.

(** [c in s] for a character [c]. *)
Fixpoint has_char (c : ascii) (s : string) : bool :=
  match s with
  | EmptyString => false
  | String x s' => Ascii.eqb c x || has_char c s'
  end.

(** An environment in which exactly the calls selected by [p] raise. *)
Definition raising_env (p : Call -> bool) : Env :=
  {| raises := fun _ c => p c;
     param := fun _ => "/tmp/logs";
     expanduser := fun _ => "/home/user";
     strftime := fun _ => "2020_01_02_03_04_05";
     entity_signal := fun e s => {| signal_name := (e ++ "::" ++ s)%string |};
     ros_bridge := fun _ => {| rosPublish := "rosPublish" |} |}.

Definition is_os_path_expanduser (c : Call) : bool :=
  match c with os_path_expanduser _ => true | _ => false end.

Definition is_after_addSignal (c : Call) : bool :=
  match c with after_addSignal _ _ => true | _ => false end.

(* ================================================================== *)
(** * Properties *)

(** ** World bookkeeping *)

Lemma add_calls_nil (w : World) : add_calls [] w = w.
Proof. destruct w; unfold add_calls; simpl. now rewrite app_nil_r. Qed.

Lemma add_calls_add_calls (a b : list Call) (w : World) :
  add_calls b (add_calls a w) = add_calls (a ++ b) w.
Proof. unfold add_calls; simpl. now rewrite app_assoc. Qed.

Lemma new_calls_add_calls (cs : list Call) (w : World) :
  new_calls w (add_calls cs w) = cs.
Proof.
  unfold new_calls, add_calls; simpl.
  induction (calls w) as [|c l IH]; simpl; auto.
Qed.

(** ** Running the monad when calls succeed *)

Section Runs.

Variable env : Env.
Hypothesis Hsucc : calls_succeed env.

Lemma call_run (c : Call) (r : Robot) (w : World) :
  is_log_dir_lookup c = false ->
  call env c (r, w) = (Ok tt, (r, add_calls [c] w)).
Proof.
  intros Hc. unfold call; simpl.
  destruct (raises env (calls w) c) eqn:E; [|reflexivity].
  apply Hsucc in E. congruence.
Qed.

Ltac run_calls :=
  repeat (first
    [ rewrite call_run by reflexivity
    | rewrite add_calls_add_calls
    | progress cbn [fst snd ret raise get_self get_class modify_self
                    modify_class app tracer device ros name set_tracer
                    set_ros set_name set_device tracedSignals
                    device_signals_names set_tracedSignals
                    set_device_signals_names record_call
                    autoRecomputedSignals tracerSize calls add_calls
                    set_autoRecomputedSignals option_map] ]).

Lemma initialize_tracer_run (r : Robot) (w : World) (d : Device) :
  tracer r = None ->
  device r = Some d ->
  initialize_tracer env (r, w)
  = (Ok tt, (set_tracer (Some the_trace) r,
             add_calls (initialize_tracer_calls env w (device_name d)) w)).
Proof.
  intros Ht Hd.
  unfold initialize_tracer, TracerRealTime, self_device, try_except,
    rospy_get_param_, os_path_expanduser_, time_strftime_, bind.
  cbn [get_self fst snd]. rewrite Ht.
  run_calls.
  unfold initialize_tracer_calls, resolve_log_dir, create_tracer_calls.
  unfold call at 1. cbn [fst snd calls add_calls].
  change {| tracer_name := "trace" |} with the_trace.
  destruct (raises env _ (rospy_get_param log_dir_param)) eqn:E.
  - run_calls. rewrite Hd. unfold record_call. run_calls. reflexivity.
  - run_calls. rewrite Hd. unfold record_call. run_calls. reflexivity.
Qed.

Lemma add_trace_run (e s : string) (r : Robot) (w : World) (t : Tracer) :
  tracer r = Some t ->
  add_trace env e s (r, w)
  = (Ok tt,
     (r, {| autoRecomputedSignals :=
              autoRecomputedSignals w ++ [Py.format_dot e s];
            tracerSize := tracerSize w;
            calls := calls w ++
              [addTrace (name r) (option_map device_name (device r))
                 t e s] |})).
Proof.
  intros Ht. unfold add_trace, bind. cbn [get_self fst snd]. rewrite Ht.
  run_calls. reflexivity.
Qed.

Lemma add_trace_loop (l : list string) (r : Robot) (w : World)
    (t : Tracer) (d : Device) :
  tracer r = Some t ->
  device r = Some d ->
  for_each l (fun s => d <- self_device ;; add_trace env (device_name d) s)
    (r, w)
  = (Ok tt,
     (r, {| autoRecomputedSignals :=
              autoRecomputedSignals w
                ++ map (Py.format_dot (device_name d)) l;
            tracerSize := tracerSize w;
            calls := calls w ++
              map (addTrace (name r) (Some (device_name d)) t
                     (device_name d)) l |})).
Proof.
  intros Ht Hd. revert w.
  induction l as [|s l IH]; intros w.
  - cbn [for_each ret map]. rewrite !app_nil_r. now destruct w.
  - cbn [for_each]. unfold bind at 1. unfold bind at 1.
    unfold self_device at 1. unfold bind at 1.
    cbn [get_self fst snd]. rewrite Hd. cbn [ret].
    rewrite (add_trace_run _ _ _ _ t Ht). rewrite IH.
    rewrite Hd. cbn [option_map autoRecomputedSignals tracerSize calls map].
    now rewrite <- !app_assoc.
Qed.

Lemma rm_loop (l : list string) (r : Robot) (w : World) (d : Device) :
  device r = Some d ->
  for_each l (fun s =>
    d <- self_device ;; call env (after_rmSignal (device_name d) s)) (r, w)
  = (Ok tt, (r, add_calls (map (after_rmSignal (device_name d)) l) w)).
Proof.
  intros Hd. revert w.
  induction l as [|s l IH]; intros w.
  - cbn [for_each ret map]. now rewrite add_calls_nil.
  - cbn [for_each]. unfold bind at 1. unfold bind at 1.
    unfold self_device at 1. unfold bind at 1.
    cbn [get_self fst snd]. rewrite Hd. cbn [ret].
    rewrite call_run by reflexivity. rewrite IH.
    now rewrite add_calls_add_calls.
Qed.

Lemma export_signal_to_ros_run (sg : Signal) (topic : option string)
    (r : Robot) (w : World) (b : Ros) :
  ros r = Some b ->
  export_signal_to_ros env sg topic (r, w)
  = (Ok tt,
     (r, add_calls
           (let tn := match topic with
                      | None => signal_name sg
                      | Some t => t
                      end in
            [rosPublish_add (rosPublish b) "vector" tn ("/dg__" ++ tn)%string;
             rosPublish_signal (rosPublish b) tn;
             plug sg (entity_signal env (rosPublish b) tn)]) w)).
Proof.
  intros Hr. unfold export_signal_to_ros, self_ros, bind.
  cbn [get_self fst snd]. rewrite Hr. run_calls. rewrite Hr. run_calls.
  reflexivity.
Qed.

Lemma export_loop (l : list string) (r : Robot) (w : World)
    (b : Ros) (d : Device) :
  ros r = Some b ->
  device r = Some d ->
  for_each l (fun sig_name =>
    d <- self_device ;;
    call env (device_signal (device_name d) sig_name) ;;
    export_signal_to_ros env (entity_signal env (device_name d) sig_name)
      (Some ("device__" ++ sig_name)%string)) (r, w)
  = (Ok tt,
     (r, add_calls
           (flat_map (export_calls env (device_name d) (rosPublish b)) l)
           w)).
Proof.
  intros Hr Hd. revert w.
  induction l as [|s l IH]; intros w.
  - cbn [for_each ret flat_map]. now rewrite add_calls_nil.
  - cbn [for_each]. unfold bind at 1. unfold bind at 1.
    unfold self_device at 1. unfold bind at 1.
    cbn [get_self fst snd]. rewrite Hd. cbn [ret].
    unfold bind at 1. rewrite call_run by reflexivity.
    rewrite (export_signal_to_ros_run _ _ _ _ b Hr). rewrite IH.
    rewrite !add_calls_add_calls. reflexivity.
Qed.

Lemma names_loop (sigs : list Signal) (r : Robot) (w : World)
    (l0 : list string) :
  tracedSignals r = [("device", l0)] ->
  for_each sigs (fun signal =>
    let signal_name := short_name signal in
    l <- self_tracedSignals "device" ;;
    modify_self (fun r =>
      set_tracedSignals
        (Py.dict_set (tracedSignals r) "device" (l ++ [signal_name])) r) ;;
    modify_self (fun r =>
      set_device_signals_names
        (device_signals_names r ++ [signal_name]) r)) (r, w)
  = (Ok tt,
     (set_device_signals_names
        (device_signals_names r ++ map short_name sigs)
        (set_tracedSignals [("device", l0 ++ map short_name sigs)] r),
      w)).
Proof.
  revert r l0.
  induction sigs as [|sg sigs IH]; intros r l0 Hts.
  - cbn [for_each ret map]. rewrite !app_nil_r. rewrite <- Hts.
    now destruct r.
  - cbn [for_each]. unfold bind at 1. cbv zeta. unfold bind at 1.
    unfold self_tracedSignals at 1. unfold bind at 1.
    cbn [get_self fst snd]. rewrite Hts.
    cbn [Py.dict_get String.eqb Ascii.eqb Bool.eqb ret].
    unfold bind at 1. cbn [modify_self fst snd].
    unfold bind at 1. cbn [modify_self fst snd].
    rewrite (IH _ (l0 ++ [short_name sg])).
    + unfold set_device_signals_names, set_tracedSignals.
      cbn [name device tracer tracedSignals device_signals_names ros map].
      now rewrite <- !app_assoc.
    + cbn [tracedSignals set_device_signals_names set_tracedSignals].
      rewrite Hts. reflexivity.
Qed.

Lemma start_tracer_run (r : Robot) (w : World) (t : Tracer) :
  tracer r = Some t ->
  start_tracer env (r, w) = (Ok tt, (r, add_calls [tracer_start t] w)).
Proof.
  intros Ht. unfold start_tracer, bind. cbn [get_self fst snd]. rewrite Ht.
  now rewrite call_run.
Qed.

Lemma stop_tracer_run (r : Robot) (w : World) (t : Tracer) (d : Device) :
  tracer r = Some t ->
  device r = Some d ->
  stop_tracer env (r, w)
  = (Ok tt,
     (set_tracer None r,
      add_calls
        (stop_tracer_calls t (device_name d) (autoRecomputedSignals w)) w)).
Proof.
  intros Ht Hd. unfold stop_tracer. unfold bind at 1.
  cbn [get_self fst snd]. rewrite Ht.
  do 4 (unfold bind at 1; rewrite call_run by reflexivity).
  unfold bind at 1. cbn [get_class fst snd].
  unfold bind at 1. rewrite !add_calls_add_calls.
  cbn [autoRecomputedSignals add_calls].
  rewrite (rm_loop _ _ _ d Hd). cbn [modify_self fst snd].
  rewrite add_calls_add_calls. reflexivity.
Qed.

Lemma initialize_tracer_skip (r : Robot) (w : World) (t : Tracer) :
  tracer r = Some t ->
  initialize_tracer env (r, w) = (Ok tt, (r, w)).
Proof.
  intros Ht. unfold initialize_tracer, bind. cbn [get_self fst snd].
  now rewrite Ht.
Qed.

(** [__init__] from the statement after [self.initialize_tracer()] on. *)
Lemma init_tail_run (k : M unit) (n : string) (d : Device) (t : Tracer)
    (r : Robot) (w : World) :
  name r = n -> device r = Some d -> tracer r = Some t ->
  k = (modify_self (set_tracedSignals [("device", [])]) ;;
       modify_self (set_device_signals_names []) ;;
       d <- self_device ;;
       call env (device_signals_call (device_name d)) ;;
       for_each (device_signals d) (fun signal =>
         let signal_name := short_name signal in
         l <- self_tracedSignals "device" ;;
         modify_self (fun r =>
           set_tracedSignals
             (Py.dict_set (tracedSignals r) "device" (l ++ [signal_name]))
             r) ;;
         modify_self (fun r =>
           set_device_signals_names
             (device_signals_names r ++ [signal_name]) r)) ;;
       l <- self_tracedSignals "device" ;;
       for_each l (fun s =>
         d <- self_device ;;
         add_trace env (device_name d) s) ;;
       self <- get_self ;;
       call env (Ros_new (name self)) ;;
       modify_self (set_ros (Some (ros_bridge env (name self)))) ;;
       d <- self_device ;;
       call env
         (after_addDownsampledSignal (device_name d) "rosPublish.trigger" 1) ;;
       export_device_dg_to_ros env) ->
  k (r, w)
  = (Ok tt,
     (set_ros (Some (ros_bridge env n))
        (set_device_signals_names (map short_name (device_signals d))
           (set_tracedSignals
              [("device", map short_name (device_signals d))] r)),
      {| autoRecomputedSignals :=
           autoRecomputedSignals w ++ recorded_entries d;
         tracerSize := tracerSize w;
         calls := calls w
           ++ [device_signals_call (device_name d)]
           ++ map (addTrace n (Some (device_name d)) t (device_name d))
                (map short_name (device_signals d))
           ++ [Ros_new n;
               after_addDownsampledSignal (device_name d)
                 "rosPublish.trigger" 1]
           ++ flat_map
                (export_calls env (device_name d)
                   (rosPublish (ros_bridge env n)))
                (map short_name (device_signals d)) |})).
Proof.
  intros Hn Hd Ht ->.
  unfold bind at 1. cbn [modify_self fst snd].
  unfold bind at 1. cbn [modify_self fst snd].
  unfold bind at 1. unfold self_device at 1. unfold bind at 1.
  cbn [get_self fst snd set_device_signals_names set_tracedSignals device].
  rewrite Hd. cbn [ret].
  unfold bind at 1. rewrite call_run by reflexivity.
  unfold bind at 1.
  rewrite (names_loop _ _ _ []) by reflexivity.
  cbn [app device_signals_names set_device_signals_names set_tracedSignals].
  unfold bind at 1. unfold self_tracedSignals at 1. unfold bind at 1.
  cbn [get_self fst snd tracedSignals set_device_signals_names
       set_tracedSignals Py.dict_get String.eqb Ascii.eqb Bool.eqb ret].
  unfold bind at 1.
  rewrite (add_trace_loop _ _ _ t d) by (cbn; assumption).
  unfold bind at 1. cbn [get_self fst snd].
  unfold bind at 1. rewrite call_run by reflexivity.
  unfold bind at 1. cbn [modify_self fst snd].
  unfold bind at 1. unfold self_device at 1. unfold bind at 1.
  cbn [get_self fst snd set_ros device set_device_signals_names
       set_tracedSignals].
  rewrite Hd. cbn [ret].
  unfold bind at 1. rewrite call_run by reflexivity.
  unfold export_device_dg_to_ros. unfold bind at 1.
  cbn [get_self fst snd device_signals_names set_ros
       set_device_signals_names].
  rewrite (export_loop _ _ _ (ros_bridge env (name r)) d)
    by (cbn; auto).
  unfold recorded_entries, add_calls.
  cbn [name set_ros set_device_signals_names set_tracedSignals
       tracer device tracedSignals
       device_signals_names ros autoRecomputedSignals tracerSize calls].
  rewrite Hn. rewrite map_map. rewrite <- !app_assoc. reflexivity.
Qed.

Lemma Robot_new_run (n : string) (d : Device) (tr : option Tracer)
    (w : World) :
  Robot_new env n (Some d) tr w
  = (Ok tt,
     (constructed env n d tr,
      {| autoRecomputedSignals :=
           autoRecomputedSignals w ++ recorded_entries d;
         tracerSize := tracerSize w;
         calls := calls w ++ construction_calls env w n d tr |})).
Proof.
  unfold Robot_new, __init__.
  unfold bind at 1. cbn [modify_self fst snd].
  unfold bind at 1. cbn [modify_self fst snd].
  unfold bind at 1.
  destruct tr as [t|].
  - cbn [modify_self fst snd]. unfold bind at 1.
    rewrite (initialize_tracer_skip _ _ t) by reflexivity.
    rewrite (init_tail_run _ n d t) by reflexivity.
    unfold constructed, construction_calls. reflexivity.
  - cbn [ret]. unfold bind at 1.
    rewrite (initialize_tracer_run _ _ d) by reflexivity.
    rewrite (init_tail_run _ n d the_trace) by reflexivity.
    unfold constructed, construction_calls, add_calls.
    cbn [autoRecomputedSignals tracerSize calls].
    rewrite <- !app_assoc. reflexivity.
Qed.

End Runs.

(** ** Exceptions are let through *)

Section Propagation.

Variable env : Env.

Lemma only_lookup_raised_app (h s1 s2 : list Call) :
  only_lookup_raised env h (s1 ++ s2)
  = only_lookup_raised env h s1 && only_lookup_raised env (h ++ s1) s2.
Proof.
  revert h. induction s1 as [|c s1 IH]; intros h.
  - cbn. now rewrite app_nil_r.
  - cbn [app only_lookup_raised]. rewrite IH, <- app_assoc.
    cbn [app]. now rewrite andb_assoc.
Qed.

Lemma only_lookup_raised_spec (h seg : list Call) :
  only_lookup_raised env h seg = true <->
  (forall pre c post, seg = pre ++ c :: post ->
     raises env (h ++ pre) c = true -> is_log_dir_lookup c = true).
Proof.
  revert h. induction seg as [|c0 seg IH]; intros h.
  - split; [|reflexivity]. intros _ pre c post E.
    now destruct pre.
  - cbn [only_lookup_raised]. rewrite andb_true_iff, IH. split.
    + intros [H0 Hrest] pre c post E Hr.
      destruct pre as [|c1 pre]; cbn [app] in E; inversion E; subst.
      * rewrite app_nil_r in Hr. rewrite Hr in H0. exact H0.
      * apply (Hrest pre c post eq_refl).
        now rewrite <- app_assoc.
    + intros H. split.
      * destruct (raises env h c0) eqn:Er; [|reflexivity].
        cbn [negb orb]. apply (H [] c0 seg eq_refl).
        now rewrite app_nil_r.
      * intros pre c post E Hr. apply (H (c0 :: pre) c post).
        -- now rewrite E.
        -- now rewrite <- app_assoc in Hr.
Qed.

Lemma propagates_pure {A : Type} (m : M A) :
  (forall st, calls (snd (snd (m st))) = calls (snd st)) ->
  (forall st c, fst (m st) <> Raise (raised_by c)) ->
  propagates env m.
Proof.
  intros Hc Hr st. exists []. rewrite app_nil_r. split; [apply Hc|].
  left. split; [reflexivity|]. intros c. apply Hr.
Qed.

Lemma propagates_ret {A : Type} (a : A) : propagates env (ret a).
Proof. apply propagates_pure; intros; cbn; congruence. Qed.

Lemma propagates_AttributeError {A : Type} :
  propagates env (@raise A AttributeError).
Proof. apply propagates_pure; intros; cbn; congruence. Qed.

Lemma propagates_KeyError {A : Type} : propagates env (@raise A KeyError).
Proof. apply propagates_pure; intros; cbn; congruence. Qed.

Lemma propagates_get_self : propagates env get_self.
Proof. apply propagates_pure; intros; cbn; congruence. Qed.

Lemma propagates_get_class : propagates env get_class.
Proof. apply propagates_pure; intros; cbn; congruence. Qed.

Lemma propagates_modify_self (f : Robot -> Robot) :
  propagates env (modify_self f).
Proof. apply propagates_pure; intros; cbn; congruence. Qed.

Lemma propagates_modify_class (f : World -> World) :
  (forall w, calls (f w) = calls w) ->
  propagates env (modify_class f).
Proof. intros Hf. apply propagates_pure; intros; cbn; auto; congruence. Qed.

Lemma propagates_call (c : Call) :
  is_log_dir_lookup c = false -> propagates env (call env c).
Proof.
  intros Hc [r w]. exists [c]. unfold call. cbn [fst snd].
  destruct (raises env (calls w) c) eqn:E; cbn [fst snd];
    (split; [reflexivity|]).
  - right. exists [], c. rewrite app_nil_r. repeat split; auto.
  - left. split; [cbn; now rewrite E|discriminate].
Qed.

Lemma propagates_bind {A B : Type} (m : M A) (k : A -> M B) :
  propagates env m ->
  (forall a, propagates env (k a)) ->
  propagates env (bind m k).
Proof.
  intros Hm Hk st. destruct (Hm st) as (s1 & E1 & U1).
  unfold bind. destruct (m st) as [[a|e] st1] eqn:Em; cbn [fst snd] in *.
  - destruct U1 as [[Q1 _]|(pre & c & _ & _ & _ & _ & Hres)];
      [|discriminate Hres].
    destruct (Hk a st1) as (s2 & E2 & U2).
    exists (s1 ++ s2). split; [now rewrite E2, E1, app_assoc|].
    rewrite E1 in U2. destruct U2 as [[Q2 N2]|(pre & c & -> & Q2 & R2 & L2 & Hres)].
    + left. split; [|exact N2].
      now rewrite only_lookup_raised_app, Q1, Q2.
    + right. exists (s1 ++ pre), c. rewrite app_assoc.
      split; [reflexivity|]. split.
      * now rewrite only_lookup_raised_app, Q1, Q2.
      * rewrite app_assoc. auto.
  - exists s1. split; [exact E1|].
    destruct U1 as [[Q1 N1]|(pre & c & -> & Q1 & R1 & L1 & Hres)].
    + left. split; [exact Q1|]. intros c Hc. apply (N1 c).
      inversion Hc. reflexivity.
    + right. exists pre, c. repeat split; auto.
      inversion Hres. reflexivity.
Qed.

Lemma propagates_for_each {A : Type} (l : list A) (body : A -> M unit) :
  (forall x, propagates env (body x)) ->
  propagates env (for_each l body).
Proof.
  intros Hb. induction l as [|x l IH]; cbn [for_each].
  - apply propagates_ret.
  - apply propagates_bind; auto.
Qed.

(** The one [try] of the file: a failed lookup is caught, what the handler
    raises is not. *)
Lemma propagates_try_lookup (handler : M string) :
  propagates env handler ->
  propagates env (try_except (rospy_get_param_ env log_dir_param) handler).
Proof.
  intros Hh [r w]. unfold try_except, rospy_get_param_, bind, call.
  cbn [fst snd].
  destruct (raises env (calls w) (rospy_get_param log_dir_param)) eqn:E.
  - destruct (Hh (r, record_call (rospy_get_param log_dir_param) w))
      as (s2 & E2 & U2).
    cbn [fst snd record_call add_calls calls] in *.
    exists (rospy_get_param log_dir_param :: s2). split.
    + rewrite E2, <- app_assoc. reflexivity.
    + destruct U2 as [[Q2 N2]|(pre & c & -> & Q2 & R2 & L2 & Hres)].
      * left. split; [|exact N2]. cbn [only_lookup_raised].
        rewrite Q2. now rewrite andb_true_r, orb_true_r.
      * right. exists (rospy_get_param log_dir_param :: pre), c.
        split; [reflexivity|]. split.
        -- cbn [only_lookup_raised]. rewrite Q2.
           now rewrite andb_true_r, orb_true_r.
        -- rewrite <- app_assoc in R2. auto.
  - cbn [ret fst snd record_call add_calls calls].
    exists [rospy_get_param log_dir_param]. split; [reflexivity|].
    left. split; [cbn; now rewrite E|discriminate].
Qed.

Ltac propagate :=
  repeat first
    [ apply propagates_ret
    | apply propagates_AttributeError
    | apply propagates_KeyError
    | apply propagates_get_self
    | apply propagates_get_class
    | apply propagates_modify_self
    | apply propagates_modify_class; reflexivity
    | apply propagates_call; reflexivity
    | apply propagates_try_lookup
    | apply propagates_for_each; intros
    | apply propagates_bind; intros
    | match goal with
      | |- propagates _ (match ?x with _ => _ end) => destruct x
      end ].

Lemma propagates_self_device : propagates env self_device.
Proof. unfold self_device. propagate. Qed.

Lemma propagates_self_ros : propagates env self_ros.
Proof. unfold self_ros. propagate. Qed.









End Propagation.

(** ** Strings: [split] and the short name *)

Section Split.

Lemma string_app_assoc (a b c : string) :
  ((a ++ b) ++ c = a ++ (b ++ c))%string.
Proof. induction a as [|x a IH]; cbn; [reflexivity|now rewrite IH]. Qed.

Lemma string_length_app (a b : string) :
  String.length (a ++ b) = String.length a + String.length b.
Proof. induction a as [|x a IH]; cbn; [reflexivity|now rewrite IH]. Qed.

Lemma prefix_app (p s : string) :
  String.prefix p s = true <-> exists b, s = (p ++ b)%string.
Proof.
  revert s. induction p as [|x p IH]; intros s.
  - split; [intros _; now exists s|]. intros _. now destruct s.
  - destruct s as [|y s]; cbn.
    + split; [discriminate|intros [b Hb]; discriminate].
    + destruct (Ascii.ascii_dec x y) as [->|Hxy].
      * rewrite IH. split; intros [b Hb]; exists b; congruence.
      * split; [discriminate|]. intros [b Hb]. congruence.
Qed.

(** A non-empty separator [String x0 p0]. *)
Variable x0 : ascii.
Variable p0 : string.
Notation "'sep'" := (String x0 p0) (only parsing).

Lemma not_occurs_empty : ~ occurs sep EmptyString.
Proof. intros (a & b & E). destruct a; discriminate. Qed.

Lemma split_from_skip (a b : string) :
  Py.split_from sep (String.length a) (a ++ b) = Py.split_from sep 0 b.
Proof.
  induction a as [|x a IH]; [reflexivity|].
  cbn [String.length append Py.split_from]. exact IH.
Qed.

Lemma split_from_unfold (c : ascii) (s : string) :
  Py.split_from sep 0 (String c s)
  = if String.prefix sep (String c s)
    then EmptyString :: Py.split_from sep (String.length sep - 1) s
    else match Py.split_from sep 0 s with
         | q :: ps => String c q :: ps
         | [] => [String c EmptyString]
         end.
Proof. reflexivity. Qed.

Lemma split_at_separator (b : string) :
  Py.split_from sep 0 (sep ++ b) = EmptyString :: Py.split_from sep 0 b.
Proof.
  assert (Hp : String.prefix sep (sep ++ b) = true)
    by (apply prefix_app; now exists b).
  cbn [append] in *. rewrite split_from_unfold, Hp.
  replace (String.length sep - 1) with (String.length p0)
    by (cbn [String.length]; lia).
  now rewrite split_from_skip.
Qed.

(** The pieces of [s.split(sep)]: there is a last one; it holds no
    separator; it is all of [s] when it is the only piece, and otherwise
    what follows a separator in [s]. *)
Lemma split_last_piece (s : string) :
  exists l x,
    Py.split_from sep 0 s = l ++ [x] /\
    ~ occurs sep x /\
    ((l = [] /\ x = s) \/
     (l <> [] /\ exists pre, s = (pre ++ sep ++ x)%string)).
Proof.
  remember (String.length s) as n eqn:Hn.
  revert s Hn. induction n as [n IH] using lt_wf_ind. intros s Hn.
  destruct s as [|c s].
  - exists [], EmptyString. split; [reflexivity|].
    split; [apply not_occurs_empty|now left].
  - rewrite split_from_unfold.
    destruct (String.prefix sep (String c s)) eqn:Hp.
    + apply prefix_app in Hp. destruct Hp as [b Hb].
      cbn [append] in Hb. injection Hb as -> ->.
      replace (String.length sep - 1) with (String.length p0)
        by (cbn [String.length]; lia).
      rewrite split_from_skip.
      destruct (IH (String.length b)) with (s := b)
        as (l & x & E & Hno & Hx); [|reflexivity|].
      { subst n. cbn [String.length]. rewrite string_length_app. lia. }
      exists (EmptyString :: l), x. rewrite E. split; [reflexivity|].
      split; [exact Hno|]. right. split; [discriminate|].
      destruct Hx as [[-> ->]|[_ [pre ->]]].
      * now exists EmptyString.
      * exists (sep ++ pre)%string. cbn [append].
        now rewrite string_app_assoc.
    + destruct (IH (String.length s)) with (s := s)
        as (l & x & E & Hno & Hx); [|reflexivity|].
      { subst n. cbn [String.length]. lia. }
      rewrite E. destruct l as [|q l]; cbn [app].
      * exists [], (String c x). split; [reflexivity|].
        destruct Hx as [[_ ->]|[Hl _]]; [|now destruct Hl].
        split; [|now left].
        intros (a & b & Eab). destruct a as [|y a].
        -- cbn [append] in Eab.
           assert (String.prefix sep (String c s) = true) as Hp'
             by (apply prefix_app; exists b; exact Eab).
           congruence.
        -- cbn [append] in Eab. injection Eab as -> ->.
           apply Hno. now exists a, b.
      * exists (String c q :: l), x. split; [reflexivity|].
        split; [exact Hno|]. right. split; [discriminate|].
        destruct Hx as [[Hl _]|[_ [pre ->]]]; [discriminate|].
        now exists (String c pre).
Qed.

Lemma last_item_split (s : string) :
  let x := Py.last_item (Py.split s sep) in
  ~ occurs sep x /\
  (~ occurs sep s -> x = s) /\
  (occurs sep s -> exists pre, s = (pre ++ sep ++ x)%string).
Proof.
  unfold Py.last_item, Py.split.
  destruct (split_last_piece s) as (l & x & E & Hno & Hx).
  rewrite E, last_last. cbv zeta. split; [exact Hno|]. split.
  - intros Hs. destruct Hx as [[_ ->]|[_ [pre ->]]]; [reflexivity|].
    destruct Hs. now exists pre, x.
  - intros Hs. destruct Hx as [[_ ->]|[_ Hpre]]; [contradiction|exact Hpre].
Qed.

End Split.

Lemma short_name_spec (sg : Signal) :
  ~ occurs "::" (short_name sg) /\
  (~ occurs "::" (signal_name sg) -> short_name sg = signal_name sg) /\
  (occurs "::" (signal_name sg) ->
   exists pre, signal_name sg = (pre ++ "::" ++ short_name sg)%string).
Proof. unfold short_name. apply last_item_split. Qed.

(** [split] on concrete names; separators are matched left to right. *)
Example split_qualified_name :
  Py.split "Device(dev)::output(vector)::joint_positions" "::"
  = ["Device(dev)"; "output(vector)"; "joint_positions"].
Proof. reflexivity. Qed.

Example split_no_separator : Py.split "ctrl" "::" = ["ctrl"].
Proof. reflexivity. Qed.

Example split_trailing_separator : Py.split "a::" "::" = ["a"; ""].
Proof. reflexivity. Qed.

Example split_three_colons : Py.split "a:::b" "::" = ["a"; ":b"].
Proof. reflexivity. Qed.

Example join_home :
  Py.os_path_join "/home/user" [".dynamic_graph_manager"; "2020_01_02"]
  = "/home/user/.dynamic_graph_manager/2020_01_02".
Proof. reflexivity. Qed.

Example join_root :
  Py.os_path_join "/" [".dynamic_graph_manager"; "2020_01_02"]
  = "/.dynamic_graph_manager/2020_01_02".
Proof. reflexivity. Qed.

(** ** The post-step list *)

Lemma after_run_app (dev : string) (a b : list Call) (l : list string) :
  after_run dev (a ++ b) l = after_run dev b (after_run dev a l).
Proof. unfold after_run. apply fold_left_app. Qed.

Lemma filter_filter {A : Type} (f g : A -> bool) (l : list A) :
  filter f (filter g l) = filter (fun x => g x && f x) l.
Proof.
  induction l as [|x l IH]; cbn; [reflexivity|].
  destruct (g x); cbn; [destruct (f x)|]; now rewrite IH.
Qed.

Lemma filter_ext_eq {A : Type} (f g : A -> bool) (l : list A) :
  (forall x, f x = g x) -> filter f l = filter g l.
Proof. intros H. apply filter_ext_in. auto. Qed.

(** Removing every name of [names] from the list of [dev]. *)
Lemma after_run_rm (dev : string) (names l : list string) :
  after_run dev (map (after_rmSignal dev) names) l
  = filter (fun x => negb (existsb (String.eqb x) names)) l.
Proof.
  revert l. induction names as [|s names IH]; intros l.
  - cbn. symmetry. apply forallb_filter_id. now apply forallb_forall.
  - cbn [map after_run fold_left after_step]. rewrite String.eqb_refl.
    fold (after_run dev (map (after_rmSignal dev) names) (after_rm s l)).
    rewrite IH. unfold after_rm. rewrite filter_filter.
    apply filter_ext_eq. intros x. cbn [existsb].
    rewrite negb_orb. now rewrite (String.eqb_sym s x).
Qed.

Lemma after_run_rm_other (dev dev' : string) (names l : list string) :
  dev' <> dev ->
  after_run dev' (map (after_rmSignal dev) names) l = l.
Proof.
  intros Hne. apply String.eqb_neq in Hne. rewrite String.eqb_sym in Hne.
  induction names as [|s names IH]; [reflexivity|].
  cbn [map after_run fold_left after_step]. rewrite Hne. exact IH.
Qed.

Lemma after_run_stop (t : Tracer) (dev : string) (names l : list string) :
  after_run dev (stop_tracer_calls t dev names) l
  = filter (fun x => negb (existsb (String.eqb x) names)) l.
Proof.
  unfold stop_tracer_calls. rewrite after_run_app. cbn [after_run fold_left
    after_step]. apply after_run_rm.
Qed.

Lemma after_run_stop_other (t : Tracer) (dev dev' : string)
    (names l : list string) :
  dev' <> dev ->
  after_run dev' (stop_tracer_calls t dev names) l = l.
Proof.
  intros Hne. unfold stop_tracer_calls. rewrite after_run_app.
  cbn [after_run fold_left after_step]. now apply after_run_rm_other.
Qed.

Lemma not_in_after_stop (s : string) (names l : list string) :
  In s names ->
  ~ In s (filter (fun x => negb (existsb (String.eqb x) names)) l).
Proof.
  intros Hs Hin. apply filter_In in Hin. destruct Hin as [_ Hneg].
  apply negb_true_iff in Hneg.
  assert (existsb (String.eqb s) names = true) as Hex.
  { apply existsb_exists. exists s. split; [exact Hs|apply String.eqb_refl]. }
  congruence.
Qed.

Lemma in_after_add (s : string) (l : list string) : In s (after_add s l).
Proof.
  unfold after_add. destruct (existsb (String.eqb s) l) eqn:E.
  - apply existsb_exists in E. destruct E as (x & Hx & Hsx).
    apply String.eqb_eq in Hsx. now subst.
  - apply in_or_app. right. now left.
Qed.

Lemma in_after_add_keep (s x : string) (l : list string) :
  In x l -> In x (after_add s l).
Proof.
  intros H. unfold after_add. destruct (existsb (String.eqb s) l); [exact H|].
  apply in_or_app. now left.
Qed.

(** A name stays in the list across calls that remove nothing. *)
Lemma after_run_keeps (dev x : string) (cs : list Call) (l : list string) :
  forallb (fun c => negb (is_after_rmSignal c)) cs = true ->
  In x l -> In x (after_run dev cs l).
Proof.
  revert l. induction cs as [|c cs IH]; intros l Hcs Hx; [exact Hx|].
  cbn [forallb] in Hcs. apply andb_true_iff in Hcs. destruct Hcs as [Hc Hcs].
  cbn [after_run fold_left]. apply IH; [exact Hcs|].
  destruct c; cbn [after_step]; try exact Hx; try discriminate Hc;
    repeat match goal with
           | |- context [match ?o with Some _ => _ | None => _ end] =>
               destruct o
           | |- context [if ?b then _ else _] => destruct b
           end;
    try exact Hx; now apply in_after_add_keep.
Qed.

(** ** Counting calls *)

Lemma count_calls_app (p : Call -> bool) (a b : list Call) :
  count_calls p (a ++ b) = count_calls p a + count_calls p b.
Proof. unfold count_calls. now rewrite filter_app, length_app. Qed.

Lemma count_calls_map_all {A : Type} (p : Call -> bool) (f : A -> Call)
    (l : list A) :
  (forall x, p (f x) = true) -> count_calls p (map f l) = length l.
Proof.
  intros H. unfold count_calls. induction l as [|x l IH]; [reflexivity|].
  cbn [map filter]. rewrite H. cbn [length]. now rewrite IH.
Qed.

Lemma count_calls_map_none {A : Type} (p : Call -> bool) (f : A -> Call)
    (l : list A) :
  (forall x, p (f x) = false) -> count_calls p (map f l) = 0.
Proof.
  intros H. unfold count_calls. induction l as [|x l IH]; [reflexivity|].
  cbn [map filter]. now rewrite H.
Qed.

Lemma count_calls_flat_map {A : Type} (p : Call -> bool)
    (f : A -> list Call) (k : nat) (l : list A) :
  (forall x, count_calls p (f x) = k) ->
  count_calls p (flat_map f l) = k * length l.
Proof.
  intros H. induction l as [|x l IH]; cbn [flat_map length]; [cbn; lia|].
  rewrite count_calls_app, H, IH. lia.
Qed.

Lemma count_initialize_tracer_calls (env : Env) (w : World) (dev : string)
    (p : Call -> bool) :
  (forall c, p c = true ->
     is_addTrace c = true \/ is_rosPublish_add c = true \/ is_plug c = true) ->
  count_calls p (initialize_tracer_calls env w dev) = 0.
Proof.
  intros Hp. unfold initialize_tracer_calls, resolve_log_dir,
    create_tracer_calls, count_calls.
  assert (Hz : forall c,
    is_addTrace c = false -> is_rosPublish_add c = false ->
    is_plug c = false -> p c = false).
  { intros c H1 H2 H3. destruct (p c) eqn:E; [|reflexivity].
    destruct (Hp c E) as [H|[H|H]]; congruence. }
  destruct (raises env _ _); cbn [fst snd app filter];
    rewrite !Hz by reflexivity; reflexivity.
Qed.

Lemma construction_calls_keep (env : Env) (w : World) (n : string)
    (d : Device) (tr : option Tracer) :
  forallb (fun c => negb (is_after_rmSignal c))
    (construction_calls env w n d tr) = true.
Proof.
  assert (Hmap : forall (A : Type) (f : A -> Call) (l : list A),
            (forall x, is_after_rmSignal (f x) = false) ->
            forallb (fun c => negb (is_after_rmSignal c)) (map f l) = true).
  { intros A f l Hf. apply forallb_forall. intros c Hc.
    apply in_map_iff in Hc. destruct Hc as (x & <- & _). now rewrite Hf. }
  assert (Hexp : forall dev pub l,
            forallb (fun c => negb (is_after_rmSignal c))
              (flat_map (export_calls env dev pub) l) = true).
  { intros dev pub l. apply forallb_forall. intros c Hc.
    apply in_flat_map in Hc. destruct Hc as (x & _ & Hc). cbn in Hc.
    now repeat destruct Hc as [<-|Hc]. }
  assert (Hini : forallb (fun c => negb (is_after_rmSignal c))
                   (initialize_tracer_calls env w (device_name d)) = true).
  { unfold initialize_tracer_calls, resolve_log_dir, create_tracer_calls.
    now destruct (raises env _ _). }
  unfold construction_calls. rewrite !forallb_app, Hexp, Hmap by reflexivity.
  destruct tr; [reflexivity|]. now rewrite Hini.
Qed.

(** ** [stop_tracer] never touches the cleanup list *)

Section CleanupList.

Variable env : Env.

Lemma keeps_bind {A B : Type} (m : M A) (k : A -> M B) :
  keeps_cleanup_list m -> (forall a, keeps_cleanup_list (k a)) ->
  keeps_cleanup_list (bind m k).
Proof.
  intros Hm Hk st. unfold bind. specialize (Hm st).
  destruct (m st) as [[a|e] st1]; cbn [fst snd] in *; [|exact Hm].
  now rewrite Hk.
Qed.

Lemma keeps_call (c : Call) : keeps_cleanup_list (call env c).
Proof. intros st. unfold call. now destruct (raises env _ _). Qed.

Lemma keeps_for_each {A : Type} (l : list A) (body : A -> M unit) :
  (forall x, keeps_cleanup_list (body x)) ->
  keeps_cleanup_list (for_each l body).
Proof.
  intros Hb. induction l as [|x l IH]; cbn [for_each].
  - now intros st.
  - apply keeps_bind; auto.
Qed.

Lemma keeps_self_device : keeps_cleanup_list self_device.
Proof. intros [r w]. unfold self_device, bind. cbn. now destruct (device r). Qed.

Lemma keeps_stop_tracer : keeps_cleanup_list (stop_tracer env).
Proof.
  unfold stop_tracer. apply keeps_bind; [now intros st|]. intros self.
  destruct (tracer self); [|now intros st].
  repeat (apply keeps_bind; [apply keeps_call|intros _]).
  apply keeps_bind; [now intros st|]. intros cls.
  apply keeps_bind; [|now intros _ st].
  apply keeps_for_each. intros x.
  apply keeps_bind; [apply keeps_self_device|intros; apply keeps_call].
Qed.

End CleanupList.

Lemma filter_rm_stop_tracer_calls (t : Tracer) (dev : string)
    (l : list string) :
  filter is_after_rmSignal (stop_tracer_calls t dev l)
  = map (after_rmSignal dev) l.
Proof.
  unfold stop_tracer_calls. cbn [app filter is_after_rmSignal].
  induction l as [|x l IH]; [reflexivity|].
  cbn [map filter is_after_rmSignal]. now rewrite IH.
Qed.

Lemma new_calls_app (w w' : World) (cs : list Call) :
  calls w' = calls w ++ cs -> new_calls w w' = cs.
Proof.
  intros E. unfold new_calls. rewrite E. clear E.
  induction (calls w) as [|c l IH]; cbn; auto.
Qed.

(** ** Construction only appends to the cleanup list *)

Section Appends.

Variable env : Env.

Lemma appends_keeps {A : Type} (m : M A) :
  keeps_cleanup_list m -> appends_to_cleanup_list m.
Proof. intros H st. exists []. now rewrite app_nil_r. Qed.

Lemma appends_bind {A B : Type} (m : M A) (k : A -> M B) :
  appends_to_cleanup_list m -> (forall a, appends_to_cleanup_list (k a)) ->
  appends_to_cleanup_list (bind m k).
Proof.
  intros Hm Hk st. unfold bind. destruct (Hm st) as [e1 E1].
  destruct (m st) as [[a|e] st1]; cbn [fst snd] in *; [|now exists e1].
  destruct (Hk a st1) as [e2 E2]. exists (e1 ++ e2).
  now rewrite E2, E1, app_assoc.
Qed.

Lemma appends_try_except {A : Type} (m h : M A) :
  appends_to_cleanup_list m -> appends_to_cleanup_list h ->
  appends_to_cleanup_list (try_except m h).
Proof.
  intros Hm Hh st. unfold try_except. destruct (Hm st) as [e1 E1].
  destruct (m st) as [[a|e] st1]; cbn [fst snd] in *; [now exists e1|].
  destruct (Hh st1) as [e2 E2]. exists (e1 ++ e2).
  now rewrite E2, E1, app_assoc.
Qed.

Lemma appends_for_each {A : Type} (l : list A) (body : A -> M unit) :
  (forall x, appends_to_cleanup_list (body x)) ->
  appends_to_cleanup_list (for_each l body).
Proof.
  intros Hb. induction l as [|x l IH]; cbn [for_each].
  - apply appends_keeps. now intros st.
  - apply appends_bind; auto.
Qed.

Ltac appends_step :=
  first
    [ apply appends_bind; intros
    | apply appends_try_except
    | apply appends_for_each; intros
    | apply appends_keeps; apply keeps_call
    | apply appends_keeps; apply keeps_self_device
    | apply appends_keeps; intros ?; reflexivity
    | match goal with
      | |- appends_to_cleanup_list (match ?x with _ => _ end) => destruct x
      end ].

Ltac appends := repeat appends_step.

Lemma appends_add_trace (e s : string) :
  appends_to_cleanup_list (add_trace env e s).
Proof.
  unfold add_trace. apply appends_bind; [appends|]. intros self.
  destruct (tracer self); [|appends].
  apply appends_bind; [|intros; appends].
  intros st. eexists. reflexivity.
Qed.

Lemma appends_initialize_tracer :
  appends_to_cleanup_list (initialize_tracer env).
Proof.
  unfold initialize_tracer, TracerRealTime, rospy_get_param_,
    os_path_expanduser_, time_strftime_.
  appends.
Qed.

Lemma appends_export_device_dg_to_ros :
  appends_to_cleanup_list (export_device_dg_to_ros env).
Proof.
  unfold export_device_dg_to_ros, export_signal_to_ros, self_ros.
  appends.
Qed.

Lemma appends_init (n : string) (d : option Device) (tr : option Tracer) :
  appends_to_cleanup_list (__init__ env n d tr).
Proof.
  unfold __init__.
  do 3 (apply appends_bind; [appends|intros]).
  apply appends_bind; [apply appends_initialize_tracer|intros].
  unfold self_tracedSignals.
  repeat first [ apply appends_add_trace
               | apply appends_export_device_dg_to_ros
               | appends_step ].
Qed.

End Appends.

(** ** Paths *)



Lemma count_construction_calls (env : Env) (w : World) (n : string)
    (d : Device) (tr : option Tracer) :
  count_calls is_addTrace (construction_calls env w n d tr)
  = length (device_signals d) /\
  count_calls is_rosPublish_add (construction_calls env w n d tr)
  = length (device_signals d) /\
  count_calls is_plug (construction_calls env w n d tr)
  = length (device_signals d).
Proof.
  assert (Hini : forall p,
    (forall c, p c = true ->
       is_addTrace c = true \/ is_rosPublish_add c = true \/
       is_plug c = true) ->
    count_calls p
      (match tr with
       | Some _ => []
       | None => initialize_tracer_calls env w (device_name d)
       end) = 0).
  { intros p Hp. destruct tr; [reflexivity|].
    now apply count_initialize_tracer_calls. }
  unfold construction_calls. rewrite !count_calls_app.
  rewrite !Hini by auto.
  rewrite (count_calls_map_all is_addTrace) by reflexivity.
  rewrite (count_calls_map_none is_rosPublish_add) by reflexivity.
  rewrite (count_calls_map_none is_plug) by reflexivity.
  rewrite (count_calls_flat_map is_addTrace _ 0) by reflexivity.
  rewrite (count_calls_flat_map is_rosPublish_add _ 1) by reflexivity.
  rewrite (count_calls_flat_map is_plug _ 1) by reflexivity.
  rewrite !length_map. cbn [count_calls filter is_addTrace is_rosPublish_add
    is_plug length]. lia.
Qed.

(* ================================================================== *)
(** * The claims *)

(** What [stop_tracer] takes out of the post-step lists: with a live
    tracer it issues one [rmSignal] on its device per entry of the cleanup
    list, in order; the names of that list leave the device's post-step
    list, the other entries stay in place, and the lists of other devices
    are not touched. *)
Lemma stop_tracer_removes_cleanup_list
    (env : Env) (r : Robot) (w : World) (t : Tracer) (d : Device) :
  calls_succeed env ->
  tracer r = Some t ->
  device r = Some d ->
  exists w',
    stop_tracer env (r, w) = (Ok tt, (set_tracer None r, w')) /\
    filter is_after_rmSignal (new_calls w w')
    = map (after_rmSignal (device_name d)) (autoRecomputedSignals w) /\
    (forall l,
       after_run (device_name d) (new_calls w w') l
       = filter
           (fun x => negb (existsb (String.eqb x) (autoRecomputedSignals w)))
           l) /\
    (forall dev' l,
       dev' <> device_name d -> after_run dev' (new_calls w w') l = l).
Proof.
  intros Hs Ht Hd. eexists.
  split; [apply (stop_tracer_run env Hs r w t d Ht Hd)|].
  rewrite new_calls_add_calls. split; [apply filter_rm_stop_tracer_calls|].
  split.
  - intros l. apply after_run_stop.
  - intros dev' l Hne. now apply after_run_stop_other.
Qed.

Lemma trigger_scheduled_by_construction
    (env : Env) (w : World) (n : string) (d : Device) :
  In (after_addSignal (device_name d) "trace.triger")
     (construction_calls env w n d None) /\
  (forall l,
     In "trace.triger"
        (after_run (device_name d) (construction_calls env w n d None) l)).
Proof.
  unfold construction_calls. split.
  - apply in_or_app. left. unfold initialize_tracer_calls.
    apply in_or_app. right. apply in_or_app. right. right. now left.
  - intros l. rewrite after_run_app. apply after_run_keeps.
    + pose proof (construction_calls_keep env w n d (Some the_trace)) as H.
      unfold construction_calls in H. exact H.
    + unfold initialize_tracer_calls. rewrite !after_run_app.
      cbn [after_run fold_left after_step]. rewrite String.eqb_refl.
      apply in_after_add.
Qed.

(** C1 (the code breaks it): [initialize_tracer] schedules the tracer's
    trigger with [device.after.addSignal] but does not record it in
    [autoRecomputedSignals], the list kept "to clean the signal list
    device.after before exiting".  A Robot constructed without an injected
    tracer and then torn down with [stop_tracer] therefore leaves
    ["trace.triger"], which its own construction scheduled, in the device's
    post-step list (unless that very name happens to be a cleanup entry):
    teardown does not remove every signal construction scheduled. *)
Theorem C1_trigger_survives_stop_tracer
    (env : Env) (n : string) (d : Device) (w : World) :
  calls_succeed env ->
  ~ In "trace.triger" (autoRecomputedSignals w ++ recorded_entries d) ->
  exists r1 w1 r2 w2,
    Robot_new env n (Some d) None w = (Ok tt, (r1, w1)) /\
    stop_tracer env (r1, w1) = (Ok tt, (r2, w2)) /\
    tracer r2 = None /\
    In (after_addSignal (device_name d) "trace.triger") (new_calls w w1) /\
    (forall l,
       In "trace.triger" (after_run (device_name d) (new_calls w w2) l)).
Proof.
  intros Hs Hnot. do 4 eexists.
  split; [apply (Robot_new_run env Hs)|].
  split; [apply (stop_tracer_run env Hs _ _ the_trace d); reflexivity|].
  split; [reflexivity|].
  destruct (trigger_scheduled_by_construction env w n d) as [Hin Hafter].
  split.
  - rewrite (new_calls_app w _ (construction_calls env w n d None))
      by reflexivity.
    exact Hin.
  - intros l.
    rewrite (new_calls_app w _
               (construction_calls env w n d None
                ++ stop_tracer_calls the_trace (device_name d)
                     (autoRecomputedSignals w ++ recorded_entries d)))
      by (cbn [add_calls calls]; now rewrite app_assoc).
    rewrite after_run_app, after_run_stop. apply filter_In.
    split; [apply Hafter|].
    apply negb_true_iff.
    destruct (existsb (String.eqb "trace.triger")
                (autoRecomputedSignals w ++ recorded_entries d)) eqn:E;
      [|reflexivity].
    apply existsb_exists in E. destruct E as (x & Hx & Hxe).
    apply String.eqb_eq in Hxe. subst x. now destruct Hnot.
Qed.

Lemma C1_trigger_survives_stop_tracer_witness :
  calls_succeed (sample_env false) /\
  ~ In "trace.triger"
       (autoRecomputedSignals Robot_class ++ recorded_entries sample_device) /\
  exists r1 w1 r2 w2,
    Robot_new (sample_env false) "r" (Some sample_device) None Robot_class
    = (Ok tt, (r1, w1)) /\
    stop_tracer (sample_env false) (r1, w1) = (Ok tt, (r2, w2)) /\
    In (after_addSignal "dev" "trace.triger") (new_calls Robot_class w1) /\
    In "trace.triger" (after_run "dev" (new_calls Robot_class w2) []).
Proof.
  assert (Hs : calls_succeed (sample_env false)).
  { intros h c H. discriminate H. }
  assert (Hn : ~ In "trace.triger"
                    (autoRecomputedSignals Robot_class
                     ++ recorded_entries sample_device)).
  { vm_compute. intros H.
    repeat destruct H as [H|H]; try discriminate H; exact H. }
  split; [exact Hs|]. split; [exact Hn|].
  destruct (C1_trigger_survives_stop_tracer (sample_env false) "r"
              sample_device Robot_class Hs Hn)
    as (r1 & w1 & r2 & w2 & H1 & H2 & _ & H3 & H4).
  exists r1, w1, r2, w2.
  split; [exact H1|]. split; [exact H2|]. split; [exact H3|exact (H4 [])].
Defined.

(** The same run, evaluated: after construction the post-step list holds
    the trigger, the two traced signals and the publication trigger; after
    [stop_tracer] the two traced signals are gone and both triggers are
    still there. *)
Example trigger_survives_on_sample :
  let env := sample_env false in
  let res1 := Robot_new env "r" (Some sample_device) None Robot_class in
  let res2 := stop_tracer env (snd res1) in
  fst res1 = Ok tt /\
  fst res2 = Ok tt /\
  after_run "dev" (calls (snd (snd res1))) []
  = ["trace.triger"; "dev.joint_positions"; "dev.ctrl"; "rosPublish.trigger"]
  /\
  after_run "dev" (calls (snd (snd res2))) []
  = ["trace.triger"; "rosPublish.trigger"].
Proof. repeat split. Qed.

(** A wrapper that swallowed, or masked, what [stop_tracer] raises would
    not let exceptions through in the sense of [propagates]. *)
Lemma propagates_rejects_swallowing :
  ~ (forall env, propagates env (try_except (stop_tracer env) (ret tt))) /\
  ~ (forall env,
       propagates env (try_except (stop_tracer env) (raise AttributeError))).
Proof.
  split; intros H;
    destruct (H (raising_env is_tracer_call) (sample_robot, Robot_class))
      as (seg & E & U);
    vm_compute in E; subst seg;
    destruct U as [[Q _]|(pre & c & _ & _ & _ & _ & Hres)];
    try (vm_compute in Q; discriminate Q);
    vm_compute in Hres; discriminate Hres.
Qed.

(** C3: a first [stop_tracer] returns with the tracer reference set to
    [None]; a second [stop_tracer], or a [__del__], run after it changes
    neither the instance, nor the class attributes, nor the call record: it
    performs no tracer operation and no removal. *)
Theorem C3_stop_tracer_idempotent
    (env : Env) (r : Robot) (w : World) (d : Device) :
  calls_succeed env ->
  device r = Some d ->
  exists r1 w1,
    stop_tracer env (r, w) = (Ok tt, (r1, w1)) /\
    tracer r1 = None /\
    stop_tracer env (r1, w1) = (Ok tt, (r1, w1)) /\
    __del__ env (r1, w1) = (Ok tt, (r1, w1)) /\
    new_calls w1 (snd (snd (stop_tracer env (r1, w1)))) = [].
Proof.
  intros Hs Hd.
  assert (Hnone : forall r1 w1, tracer r1 = None ->
            stop_tracer env (r1, w1) = (Ok tt, (r1, w1)) /\
            __del__ env (r1, w1) = (Ok tt, (r1, w1))).
  { intros r1 w1 H1. unfold __del__, stop_tracer, bind.
    cbn [get_self fst snd]. now rewrite H1. }
  assert (Hnil : forall w1, new_calls w1 w1 = []).
  { intros w1. unfold new_calls. now rewrite skipn_all. }
  destruct (tracer r) as [t|] eqn:Ht.
  - exists (set_tracer None r), (add_calls
      (stop_tracer_calls t (device_name d) (autoRecomputedSignals w)) w).
    split; [apply (stop_tracer_run env Hs r w t d Ht Hd)|].
    split; [reflexivity|].
    destruct (Hnone (set_tracer None r) (add_calls
      (stop_tracer_calls t (device_name d) (autoRecomputedSignals w)) w)
      eq_refl) as [H1 H2].
    rewrite H1. repeat split; auto.
  - exists r, w. destruct (Hnone r w Ht) as [H1 H2].
    rewrite H1. repeat split; auto.
Qed.

Lemma C3_stop_tracer_idempotent_witness :
  calls_succeed (sample_env false) /\
  device sample_robot = Some sample_device /\
  exists r1 w1,
    stop_tracer (sample_env false) (sample_robot, Robot_class)
    = (Ok tt, (r1, w1)) /\
    stop_tracer (sample_env false) (r1, w1) = (Ok tt, (r1, w1)).
Proof.
  assert (Hs : calls_succeed (sample_env false)).
  { intros h c H. discriminate H. }
  split; [exact Hs|]. split; [reflexivity|].
  destruct (C3_stop_tracer_idempotent (sample_env false) sample_robot
              Robot_class sample_device Hs eq_refl)
    as (r1 & w1 & H1 & _ & H2 & _).
  exists r1, w1. split; [exact H1|exact H2].
Defined.

(** C10: once [stop_tracer] has returned, the tracer reference is [None],
    and [start_tracer] and [add_trace] then leave the instance, the cleanup
    list and the call record untouched: nothing is started, nothing is
    recorded for cleanup, no trace is registered. *)
Theorem C10_no_tracer_no_effect
    (env : Env) (r : Robot) (w : World) (d : Device) :
  calls_succeed env ->
  device r = Some d ->
  exists r1 w1,
    stop_tracer env (r, w) = (Ok tt, (r1, w1)) /\
    tracer r1 = None /\
    start_tracer env (r1, w1) = (Ok tt, (r1, w1)) /\
    (forall entityName signalName,
       add_trace env entityName signalName (r1, w1) = (Ok tt, (r1, w1))).
Proof.
  intros Hs Hd.
  assert (Hnone : forall r1 w1, tracer r1 = None ->
            start_tracer env (r1, w1) = (Ok tt, (r1, w1)) /\
            (forall e s, add_trace env e s (r1, w1) = (Ok tt, (r1, w1)))).
  { intros r1 w1 H1. unfold start_tracer, add_trace, bind.
    cbn [get_self fst snd]. now rewrite H1. }
  destruct (tracer r) as [t|] eqn:Ht.
  - exists (set_tracer None r), (add_calls
      (stop_tracer_calls t (device_name d) (autoRecomputedSignals w)) w).
    split; [apply (stop_tracer_run env Hs r w t d Ht Hd)|].
    split; [reflexivity|]. now apply Hnone.
  - exists r, w. split.
    + unfold stop_tracer, bind. cbn [get_self fst snd]. now rewrite Ht.
    + split; [exact Ht|]. now apply Hnone.
Qed.

Lemma C10_no_tracer_no_effect_witness :
  calls_succeed (sample_env false) /\
  device sample_robot = Some sample_device /\
  exists r1 w1,
    stop_tracer (sample_env false) (sample_robot, Robot_class)
    = (Ok tt, (r1, w1)) /\
    add_trace (sample_env false) "dev" "ctrl" (r1, w1) = (Ok tt, (r1, w1)).
Proof.
  assert (Hs : calls_succeed (sample_env false)).
  { intros h c H. discriminate H. }
  split; [exact Hs|]. split; [reflexivity|].
  destruct (C10_no_tracer_no_effect (sample_env false) sample_robot
              Robot_class sample_device Hs eq_refl)
    as (r1 & w1 & H1 & _ & _ & H2).
  exists r1, w1. split; [exact H1|apply H2].
Defined.

(** C8: the cleanup list is one list for all instances.  Whatever
    [add_trace] on one Robot appends is in the list another Robot reads, and
    that other Robot's [stop_tracer] issues the removal of the entry on its
    own device, whose post-step list no longer holds it afterwards. *)
Theorem C8_cleanup_list_is_shared
    (env : Env) (r1 r2 : Robot) (w : World) (t1 t2 : Tracer) (d2 : Device)
    (entityName signalName : string) :
  calls_succeed env ->
  tracer r1 = Some t1 ->
  tracer r2 = Some t2 ->
  device r2 = Some d2 ->
  exists w1 w2,
    add_trace env entityName signalName (r1, w) = (Ok tt, (r1, w1)) /\
    autoRecomputedSignals w1
    = autoRecomputedSignals w ++ [Py.format_dot entityName signalName] /\
    stop_tracer env (r2, w1) = (Ok tt, (set_tracer None r2, w2)) /\
    In (after_rmSignal (device_name d2)
          (Py.format_dot entityName signalName))
       (new_calls w1 w2) /\
    (forall l,
       ~ In (Py.format_dot entityName signalName)
            (after_run (device_name d2) (new_calls w1 w2) l)).
Proof.
  intros Hs H1 H2 Hd2. eexists. eexists.
  split; [apply (add_trace_run env Hs entityName signalName r1 w t1 H1)|].
  split; [reflexivity|].
  split; [apply (stop_tracer_run env Hs r2 _ t2 d2 H2 Hd2)|].
  rewrite new_calls_add_calls. cbn [autoRecomputedSignals]. split.
  - unfold stop_tracer_calls. apply in_or_app. right.
    apply in_map. apply in_or_app. right. now left.
  - intros l. rewrite after_run_stop. apply not_in_after_stop.
    apply in_or_app. right. now left.
Qed.

Lemma C8_cleanup_list_is_shared_witness :
  calls_succeed (sample_env false) /\
  tracer sample_robot = Some the_trace /\
  tracer (constructed (sample_env false) "r2" other_device
            (Some injected_tracer)) = Some injected_tracer /\
  device (constructed (sample_env false) "r2" other_device
            (Some injected_tracer)) = Some other_device /\
  exists w1 w2,
    stop_tracer (sample_env false)
      (constructed (sample_env false) "r2" other_device
         (Some injected_tracer), w1)
    = (Ok tt,
       (set_tracer None
          (constructed (sample_env false) "r2" other_device
             (Some injected_tracer)), w2)) /\
    In (after_rmSignal "arm" "dev.extra") (new_calls w1 w2).
Proof.
  assert (Hs : calls_succeed (sample_env false)).
  { intros h c H. discriminate H. }
  split; [exact Hs|]. repeat (split; [reflexivity|]).
  destruct (C8_cleanup_list_is_shared (sample_env false) sample_robot
              (constructed (sample_env false) "r2" other_device
                 (Some injected_tracer))
              Robot_class the_trace injected_tracer other_device
              "dev" "extra" Hs eq_refl eq_refl eq_refl)
    as (w1 & w2 & _ & _ & Hstop & Hin & _).
  exists w1, w2. split; [exact Hstop|exact Hin].
Defined.

(** C9: [stop_tracer] leaves the cleanup list as it is, whatever happens
    during the call.  After a Robot has been constructed and torn down, the
    list still holds every entry recorded for it, none of which is left in
    the device's post-step list; a Robot constructed next starts from that
    list and appends its own entries behind the stale ones. *)
Theorem C9_cleanup_list_never_cleared
    (env : Env) (n1 n2 : string) (d1 d2 : Device)
    (tr1 tr2 : option Tracer) (w : World) :
  calls_succeed env ->
  (forall r0 w0,
     autoRecomputedSignals (snd (snd (stop_tracer env (r0, w0))))
     = autoRecomputedSignals w0) /\
  exists r1 w1 r1' w2 r2 w3,
    Robot_new env n1 (Some d1) tr1 w = (Ok tt, (r1, w1)) /\
    stop_tracer env (r1, w1) = (Ok tt, (r1', w2)) /\
    autoRecomputedSignals w2
    = autoRecomputedSignals w ++ recorded_entries d1 /\
    (forall s l,
       In s (recorded_entries d1) ->
       ~ In s (after_run (device_name d1) (new_calls w w2) l)) /\
    Robot_new env n2 (Some d2) tr2 w2 = (Ok tt, (r2, w3)) /\
    autoRecomputedSignals w3
    = autoRecomputedSignals w ++ recorded_entries d1 ++ recorded_entries d2.
Proof.
  intros Hs. split.
  { intros r0 w0. apply (keeps_stop_tracer env (r0, w0)). }
  do 6 eexists.
  split; [apply (Robot_new_run env Hs)|].
  split; [apply (stop_tracer_run env Hs _ _
                   (match tr1 with Some t => t | None => the_trace end) d1);
          reflexivity|].
  split; [reflexivity|].
  split.
  - intros s l Hin.
    rewrite (new_calls_app w _
               (construction_calls env w n1 d1 tr1
                ++ stop_tracer_calls
                     (match tr1 with Some t => t | None => the_trace end)
                     (device_name d1)
                     (autoRecomputedSignals w ++ recorded_entries d1)))
      by (cbn [add_calls calls]; now rewrite app_assoc).
    rewrite after_run_app, after_run_stop. apply not_in_after_stop.
    apply in_or_app. now right.
  - split; [apply (Robot_new_run env Hs)|].
    cbn [autoRecomputedSignals add_calls]. now rewrite app_assoc.
Qed.

Lemma C9_cleanup_list_never_cleared_witness :
  calls_succeed (sample_env false) /\
  exists r1 w1 r1' w2,
    Robot_new (sample_env false) "r" (Some sample_device) None Robot_class
    = (Ok tt, (r1, w1)) /\
    stop_tracer (sample_env false) (r1, w1) = (Ok tt, (r1', w2)) /\
    autoRecomputedSignals w2
    = autoRecomputedSignals Robot_class ++ recorded_entries sample_device.
Proof.
  assert (Hs : calls_succeed (sample_env false)).
  { intros h c H. discriminate H. }
  split; [exact Hs|].
  destruct (C9_cleanup_list_never_cleared (sample_env false) "r" "r2"
              sample_device other_device None None Robot_class Hs)
    as (_ & r1 & w1 & r1' & w2 & _ & _ & H1 & H2 & H3 & _).
  exists r1, w1, r1', w2. split; [exact H1|]. split; [exact H2|exact H3].
Defined.

(** C2: constructing a Robot on a device that exposes N signals returns
    normally and makes exactly N [addTrace] calls, N [rosPublish.add] calls
    and N [plug] calls. *)
Theorem C2_registrations_per_signal
    (env : Env) (n : string) (d : Device) (tr : option Tracer) (w : World) :
  calls_succeed env ->
  exists r' w',
    Robot_new env n (Some d) tr w = (Ok tt, (r', w')) /\
    count_calls is_addTrace (new_calls w w') = length (device_signals d) /\
    count_calls is_rosPublish_add (new_calls w w')
    = length (device_signals d) /\
    count_calls is_plug (new_calls w w') = length (device_signals d).
Proof.
  intros Hs. do 2 eexists. split; [apply (Robot_new_run env Hs)|].
  rewrite (new_calls_app w _ (construction_calls env w n d tr))
    by reflexivity.
  apply count_construction_calls.
Qed.

Lemma C2_registrations_per_signal_witness :
  calls_succeed (sample_env true) /\
  exists r' w',
    Robot_new (sample_env true) "r" (Some sample_device) None Robot_class
    = (Ok tt, (r', w')) /\
    count_calls is_addTrace (new_calls Robot_class w') = 2.
Proof.
  assert (Hs : calls_succeed (sample_env true)).
  { intros h c H. exact H. }
  split; [exact Hs|].
  destruct (C2_registrations_per_signal (sample_env true) "r" sample_device
              None Robot_class Hs)
    as (r' & w' & H1 & H2 & _).
  exists r', w'. split; [exact H1|exact H2].
Defined.

(** C6: construction publishes the device signal of short name [s] under
    the topic name ["device__" + s] and the transport topic
    ["/dg__device__" + s]: per signal, in the order of the device's signals,
    it looks the signal up, adds the topic to [rosPublish], and then plugs
    the signal into it; no other publication is made.  In general
    [export_signal_to_ros] registers topic [t] as ["/dg__" + t], adding
    first and plugging second. *)
Theorem C6_topic_naming
    (env : Env) (n : string) (d : Device) (tr : option Tracer) (w : World) :
  calls_succeed env ->
  let dev := device_name d in
  let pub := rosPublish (ros_bridge env n) in
  (exists r' w' before,
     Robot_new env n (Some d) tr w = (Ok tt, (r', w')) /\
     new_calls w w'
     = before
       ++ flat_map
            (fun s =>
               [device_signal dev s;
                rosPublish_add pub "vector" ("device__" ++ s)%string
                  ("/dg__device__" ++ s)%string;
                rosPublish_signal pub ("device__" ++ s)%string;
                plug (entity_signal env dev s)
                     (entity_signal env pub ("device__" ++ s)%string)])
            (map short_name (device_signals d)) /\
     count_calls is_rosPublish_add before = 0 /\
     count_calls is_plug before = 0) /\
  (forall sg t r0 w0 b,
     ros r0 = Some b ->
     export_signal_to_ros env sg (Some t) (r0, w0)
     = (Ok tt,
        (r0, add_calls
               [rosPublish_add (rosPublish b) "vector" t ("/dg__" ++ t)%string;
                rosPublish_signal (rosPublish b) t;
                plug sg (entity_signal env (rosPublish b) t)] w0))).
Proof.
  intros Hs dev pub. split.
  - do 2 eexists.
    exists (match tr with
            | Some _ => []
            | None => initialize_tracer_calls env w dev
            end
            ++ [device_signals_call dev]
            ++ map (addTrace n (Some dev)
                      (match tr with Some t => t | None => the_trace end) dev)
                 (map short_name (device_signals d))
            ++ [Ros_new n;
                after_addDownsampledSignal dev "rosPublish.trigger" 1]).
    split; [apply (Robot_new_run env Hs)|].
    rewrite (new_calls_app w _ (construction_calls env w n d tr))
      by reflexivity.
    split.
    + unfold construction_calls. fold dev. fold pub.
      rewrite <- !app_assoc. reflexivity.
    + rewrite !count_calls_app.
      assert (Hini : forall p,
        (forall c, p c = true ->
           is_addTrace c = true \/ is_rosPublish_add c = true \/
           is_plug c = true) ->
        count_calls p
          (match tr with
           | Some _ => []
           | None => initialize_tracer_calls env w dev
           end) = 0).
      { intros p Hp. destruct tr; [reflexivity|].
        now apply count_initialize_tracer_calls. }
      rewrite !Hini by auto.
      rewrite (count_calls_map_none is_rosPublish_add) by reflexivity.
      rewrite (count_calls_map_none is_plug) by reflexivity.
      split; reflexivity.
  - intros sg t r0 w0 b Hb.
    apply (export_signal_to_ros_run env Hs sg (Some t) r0 w0 b Hb).
Qed.

Lemma C6_topic_naming_witness :
  calls_succeed (sample_env false) /\
  exists r' w',
    Robot_new (sample_env false) "r" (Some sample_device) None Robot_class
    = (Ok tt, (r', w')) /\
    In (rosPublish_add "rosPublish" "vector" "device__ctrl"
          "/dg__device__ctrl") (new_calls Robot_class w').
Proof.
  assert (Hs : calls_succeed (sample_env false)).
  { intros h c H. discriminate H. }
  split; [exact Hs|].
  destruct (C6_topic_naming (sample_env false) "r" sample_device None
              Robot_class Hs)
    as ((r' & w' & before & H1 & H2 & _) & _).
  exists r', w'. split; [exact H1|]. rewrite H2.
  apply in_or_app. right. vm_compute.
  repeat first [left; reflexivity | right].
Defined.

(** C7: the short name of a device signal is the last piece of its
    qualified name split at ["::"]: it holds no ["::"], it is the whole name
    when the name holds none, and otherwise the name ends with ["::"]
    followed by it.  Construction appends to the cleanup list, behind what
    was there, one entry ["<device name>.<short name>"] per device signal,
    in order; each [add_trace] with a live tracer appends exactly its own
    entry; and whatever happens during construction, the list it leaves
    extends the list it found. *)
Theorem C7_short_names_and_cleanup_entries
    (env : Env) (n : string) (d : Device) (tr : option Tracer) (w : World) :
  calls_succeed env ->
  (forall sg,
     ~ occurs "::" (short_name sg) /\
     (~ occurs "::" (signal_name sg) -> short_name sg = signal_name sg) /\
     (occurs "::" (signal_name sg) ->
      exists pre,
        signal_name sg = (pre ++ "::" ++ short_name sg)%string)) /\
  (exists r' w',
     Robot_new env n (Some d) tr w = (Ok tt, (r', w')) /\
     autoRecomputedSignals w'
     = autoRecomputedSignals w
       ++ map (fun sg => (device_name d ++ "." ++ short_name sg)%string)
            (device_signals d)) /\
  (forall entityName signalName r0 w0 t,
     tracer r0 = Some t ->
     autoRecomputedSignals
       (snd (snd (add_trace env entityName signalName (r0, w0))))
     = autoRecomputedSignals w0
       ++ [(entityName ++ "." ++ signalName)%string]) /\
  (forall env' n' d' tr' w0,
     exists ext,
       autoRecomputedSignals (snd (snd (Robot_new env' n' d' tr' w0)))
       = autoRecomputedSignals w0 ++ ext).
Proof.
  intros Hs. split; [apply short_name_spec|]. split; [|split].
  - do 2 eexists. split; [apply (Robot_new_run env Hs)|]. reflexivity.
  - intros e s r0 w0 t Ht.
    now rewrite (add_trace_run env Hs e s r0 w0 t Ht).
  - intros env' n' d' tr' w0.
    apply (appends_init env' n' d' tr' (fresh_Robot, w0)).
Qed.

Lemma C7_short_names_and_cleanup_entries_witness :
  calls_succeed (sample_env false) /\
  exists r' w',
    Robot_new (sample_env false) "r" (Some sample_device) None Robot_class
    = (Ok tt, (r', w')) /\
    autoRecomputedSignals w' = ["dev.joint_positions"; "dev.ctrl"].
Proof.
  assert (Hs : calls_succeed (sample_env false)).
  { intros h c H. discriminate H. }
  split; [exact Hs|].
  destruct (C7_short_names_and_cleanup_entries (sample_env false) "r"
              sample_device None Robot_class Hs)
    as (_ & (r' & w' & H1 & H2) & _).
  exists r', w'. split; [exact H1|]. rewrite H2. reflexivity.
Defined.

(** C5, as stated, fails for an injected tracer: Robot reuses it as it is.
    Construction returns with the injected tracer in place, yet no call
    sized its buffer, none opened it, and its trigger is not in the device's
    post-step list. *)
Lemma C5_injected_tracer_left_as_is :
  let env := sample_env false in
  let res :=
    Robot_new env "r" (Some sample_device) (Some injected_tracer)
      Robot_class in
  let r' := fst (snd res) in
  let w' := snd (snd res) in
  fst res = Ok tt /\
  tracer r' = Some injected_tracer /\
  (forall size, ~ In (tracer_setBufferSize injected_tracer size) (calls w')) /\
  (forall dir pre suf,
     ~ In (tracer_open injected_tracer dir pre suf) (calls w')) /\
  ~ In (tracer_name injected_tracer ++ ".triger")%string
       (after_run "dev" (calls w') []).
Proof.
  intros env res r' w'. split; [reflexivity|]. split; [reflexivity|].
  split; [|split].
  - intros size H. vm_compute in H.
    repeat destruct H as [H|H]; try discriminate H; exact H.
  - intros dir pre suf H. vm_compute in H.
    repeat destruct H as [H|H]; try discriminate H; exact H.
  - intros H. vm_compute in H.
    repeat destruct H as [H|H]; try discriminate H; exact H.
Qed.

(** C5, amended: construction returns with a tracer in place.  An injected
    tracer is kept and Robot neither sizes it, nor opens it, nor schedules
    its trigger: it makes no tracer call and no [device.after.addSignal]
    call, its calls being exactly the signal enumeration, the trace
    registrations, the bridge and the publications.  Without one, Robot
    creates the tracer ["trace"], sizes its buffer to [tracerSize],
    resolves the log directory, opens the tracer there with prefix ["dg_"]
    and suffix [".dat"], and schedules ["trace.triger"] with
    [device.after.addSignal], in that order and before anything else; the
    trigger is in the device's post-step list when construction ends. *)
Theorem C5_tracer_after_construction
    (env : Env) (n : string) (d : Device) (tr : option Tracer) (w : World) :
  calls_succeed env ->
  exists r' w',
    Robot_new env n (Some d) tr w = (Ok tt, (r', w')) /\
    match tr with
    | Some t =>
        tracer r' = Some t /\
        count_calls is_tracer_call (new_calls w w') = 0 /\
        count_calls is_after_addSignal (new_calls w w') = 0 /\
        (let dev := device_name d in
         let shorts := map short_name (device_signals d) in
         new_calls w w'
         = [device_signals_call dev]
           ++ map (addTrace n (Some dev) t dev) shorts
           ++ [Ros_new n;
               after_addDownsampledSignal dev "rosPublish.trigger" 1]
           ++ flat_map
                (export_calls env dev (rosPublish (ros_bridge env n)))
                shorts)
    | None =>
        tracer r' = Some the_trace /\
        (let created :=
           [TracerRealTime_new "trace";
            tracer_setBufferSize the_trace (tracerSize w)] in
         let resolved := resolve_log_dir env (calls w ++ created) in
         exists rest,
           new_calls w w'
           = created ++ fst resolved
             ++ [tracer_open the_trace (snd resolved) "dg_" ".dat";
                 after_addSignal (device_name d) "trace.triger"]
             ++ rest /\
           count_calls is_tracer_call rest = 0) /\
        (forall l, In "trace.triger" (after_run (device_name d)
                                        (new_calls w w') l))
    end.
Proof.
  intros Hs. do 2 eexists. split; [apply (Robot_new_run env Hs)|].
  rewrite (new_calls_app w _ (construction_calls env w n d tr))
    by reflexivity.
  assert (Htail : forall t,
    count_calls is_tracer_call
      ([device_signals_call (device_name d)]
       ++ map (addTrace n (Some (device_name d)) t (device_name d))
            (map short_name (device_signals d))
       ++ [Ros_new n;
           after_addDownsampledSignal (device_name d) "rosPublish.trigger" 1]
       ++ flat_map
            (export_calls env (device_name d) (rosPublish (ros_bridge env n)))
            (map short_name (device_signals d))) = 0).
  { intros t. rewrite !count_calls_app.
    rewrite (count_calls_map_none is_tracer_call) by reflexivity.
    rewrite (count_calls_flat_map is_tracer_call _ 0) by reflexivity.
    reflexivity. }
  destruct tr as [t|].
  - split; [reflexivity|]. unfold construction_calls. cbn [app].
    split; [apply (Htail t)|]. split; [|reflexivity].
    change (device_signals_call (device_name d)
            :: map (addTrace n (Some (device_name d)) t (device_name d))
                 (map short_name (device_signals d))
               ++ Ros_new n
                  :: after_addDownsampledSignal (device_name d)
                       "rosPublish.trigger" 1
                  :: flat_map
                       (export_calls env (device_name d)
                          (rosPublish (ros_bridge env n)))
                       (map short_name (device_signals d)))
      with ([device_signals_call (device_name d)]
            ++ map (addTrace n (Some (device_name d)) t (device_name d))
                 (map short_name (device_signals d))
            ++ [Ros_new n;
                after_addDownsampledSignal (device_name d)
                  "rosPublish.trigger" 1]
            ++ flat_map
                 (export_calls env (device_name d)
                    (rosPublish (ros_bridge env n)))
                 (map short_name (device_signals d))).
    rewrite !count_calls_app.
    rewrite (count_calls_map_none is_after_addSignal) by reflexivity.
    rewrite (count_calls_flat_map is_after_addSignal _ 0) by reflexivity.
    reflexivity.
  - split; [reflexivity|]. split.
    + cbv zeta. eexists. split; [|apply (Htail the_trace)].
      unfold construction_calls, initialize_tracer_calls, create_tracer_calls.
      rewrite <- !app_assoc. reflexivity.
    + intros l.
      unfold construction_calls.
      rewrite after_run_app.
      apply after_run_keeps.
      * pose proof (construction_calls_keep env w n d (Some the_trace)) as H.
        unfold construction_calls in H. exact H.
      * unfold initialize_tracer_calls. rewrite !after_run_app.
        cbn [after_run fold_left after_step]. rewrite String.eqb_refl.
        apply in_after_add.
Qed.

Lemma C5_tracer_after_construction_witness :
  calls_succeed (sample_env true) /\
  exists r' w',
    Robot_new (sample_env true) "r" (Some sample_device) None Robot_class
    = (Ok tt, (r', w')) /\
    tracer r' = Some the_trace /\
    In "trace.triger" (after_run "dev" (new_calls Robot_class w') []).
Proof.
  assert (Hs : calls_succeed (sample_env true)).
  { intros h c H. exact H. }
  split; [exact Hs|].
  destruct (C5_tracer_after_construction (sample_env true) "r" sample_device
              None Robot_class Hs)
    as (r' & w' & H1 & H2 & _ & H3).
  exists r', w'. split; [exact H1|]. split; [exact H2|exact (H3 [])].
Defined.



(* ================================================================== *)
(** * Further properties of the methods *)

(** ** Methods that leave the instance alone *)

Section Instance.

Variable env : Env.

Lemma keeps_instance_bind {A B : Type} (m : M A) (k : A -> M B) :
  keeps_instance m -> (forall a, keeps_instance (k a)) ->
  keeps_instance (bind m k).
Proof.
  intros Hm Hk st. unfold bind. specialize (Hm st).
  destruct (m st) as [[a|e] st1]; cbn [fst snd] in *; [|exact Hm].
  now rewrite Hk.
Qed.

Lemma keeps_instance_try_except {A : Type} (m h : M A) :
  keeps_instance m -> keeps_instance h -> keeps_instance (try_except m h).
Proof.
  intros Hm Hh st. unfold try_except. specialize (Hm st).
  destruct (m st) as [[a|e] st1]; cbn [fst snd] in *; [exact Hm|].
  now rewrite Hh.
Qed.

Lemma keeps_instance_call (c : Call) : keeps_instance (call env c).
Proof. intros st. unfold call. now destruct (raises env _ _). Qed.

Lemma keeps_instance_for_each {A : Type} (l : list A) (body : A -> M unit) :
  (forall x, keeps_instance (body x)) -> keeps_instance (for_each l body).
Proof.
  intros Hb. induction l as [|x l IH]; cbn [for_each].
  - now intros st.
  - apply keeps_instance_bind; auto.
Qed.

Ltac instance_step :=
  first
    [ apply keeps_instance_bind; intros
    | apply keeps_instance_try_except
    | apply keeps_instance_for_each; intros
    | apply keeps_instance_call
    | match goal with
      | |- keeps_instance (match ?x with _ => _ end) => destruct x
      end
    | intros ?; reflexivity ].

Lemma keeps_instance_self_device : keeps_instance self_device.
Proof. unfold self_device. repeat instance_step. Qed.

Lemma keeps_instance_self_ros : keeps_instance self_ros.
Proof. unfold self_ros. repeat instance_step. Qed.

Lemma keeps_instance_start_tracer : keeps_instance (start_tracer env).
Proof. unfold start_tracer. repeat instance_step. Qed.

Lemma keeps_instance_add_trace (e s : string) :
  keeps_instance (add_trace env e s).
Proof. unfold add_trace. repeat instance_step. Qed.

Lemma keeps_instance_export_signal_to_ros (sg : Signal)
    (t : option string) :
  keeps_instance (export_signal_to_ros env sg t).
Proof.
  unfold export_signal_to_ros.
  repeat first [apply keeps_instance_self_ros | instance_step].
Qed.

Lemma keeps_instance_export_device_dg_to_ros :
  keeps_instance (export_device_dg_to_ros env).
Proof.
  unfold export_device_dg_to_ros.
  repeat first [ apply keeps_instance_self_device
               | apply keeps_instance_export_signal_to_ros
               | instance_step ].
Qed.

End Instance.

(** X1: [start_tracer], [add_trace], [export_signal_to_ros] and
    [export_device_dg_to_ros] never assign an attribute of [self], whether
    they return or raise, and whatever the external calls do. *)
Theorem X1_methods_keep_instance (env : Env) (r : Robot) (w : World) :
  fst (snd (start_tracer env (r, w))) = r /\
  (forall e s, fst (snd (add_trace env e s (r, w))) = r) /\
  (forall sg t, fst (snd (export_signal_to_ros env sg t (r, w))) = r) /\
  fst (snd (export_device_dg_to_ros env (r, w))) = r.
Proof.
  split; [apply (keeps_instance_start_tracer env (r, w))|].
  split; [intros; apply (keeps_instance_add_trace env e s (r, w))|].
  split; [intros;
          apply (keeps_instance_export_signal_to_ros env sg t (r, w))|].
  apply (keeps_instance_export_device_dg_to_ros env (r, w)).
Qed.

(** X2: [__del__] behaves exactly as [stop_tracer] in every state and
    environment: its own test of the tracer duplicates the one
    [stop_tracer] makes. *)
Theorem X2_del_is_stop_tracer (env : Env) (st : Robot * World) :
  __del__ env st = stop_tracer env st.
Proof.
  destruct st as [r w]. unfold __del__. unfold bind at 1.
  cbn [get_self fst snd]. destruct (tracer r) eqn:E; [reflexivity|].
  unfold stop_tracer, bind. cbn [get_self fst snd]. now rewrite E.
Qed.

(** X3: with a live tracer, [add_trace] records its entry in the cleanup
    list before it calls [addTrace]: the entry is appended and the call is
    attempted in every environment, and when [addTrace] raises, that
    exception is what [add_trace] raises, the entry staying recorded. *)
Theorem X3_add_trace_records_before_registering
    (env : Env) (e s : string) (r : Robot) (w : World) (t : Tracer) :
  tracer r = Some t ->
  let c := addTrace (name r) (option_map device_name (device r)) t e s in
  let res := add_trace env e s (r, w) in
  autoRecomputedSignals (snd (snd res))
  = autoRecomputedSignals w ++ [(e ++ "." ++ s)%string] /\
  calls (snd (snd res)) = calls w ++ [c] /\
  fst res = (if raises env (calls w) c then Raise (raised_by c) else Ok tt).
Proof.
  intros Ht c res. subst res c. unfold add_trace, bind.
  cbn [get_self fst snd]. rewrite Ht. cbn [modify_class fst snd].
  unfold call. cbn [fst snd calls set_autoRecomputedSignals].
  destruct (raises env (calls w) _); cbn; repeat split.
Qed.

Lemma X3_add_trace_records_before_registering_witness :
  tracer sample_robot = Some the_trace /\
  fst (add_trace (raising_env is_addTrace) "dev" "extra"
         (sample_robot, Robot_class))
  = Raise (raised_by (addTrace "r" (Some "dev") the_trace "dev" "extra")) /\
  autoRecomputedSignals
    (snd (snd (add_trace (raising_env is_addTrace) "dev" "extra"
                 (sample_robot, Robot_class))))
  = ["dev.extra"].
Proof.
  split; [reflexivity|].
  destruct (X3_add_trace_records_before_registering
              (raising_env is_addTrace) "dev" "extra" sample_robot
              Robot_class the_trace eq_refl)
    as (H1 & _ & H3).
  split; [exact H3|exact H1].
Defined.

(** X4: [stop_tracer] resets the tracer reference only on a normal return.
    In every environment the instance it leaves is the one it found when it
    raises, and the one it found with [tracer = None] when it returns; no
    other attribute is ever assigned. *)
Theorem X4_stop_tracer_resets_only_on_return
    (env : Env) (r : Robot) (w : World) :
  match fst (stop_tracer env (r, w)) with
  | Ok _ => fst (snd (stop_tracer env (r, w))) = set_tracer None r
  | Raise _ => fst (snd (stop_tracer env (r, w))) = r
  end.
Proof.
  assert (Hstep : forall (A : Type) (m : M A) (k : A -> M unit) w0,
    keeps_instance m ->
    (forall a w1,
       match fst (k a (r, w1)) with
       | Ok _ => fst (snd (k a (r, w1))) = set_tracer None r
       | Raise _ => fst (snd (k a (r, w1))) = r
       end) ->
    match fst (bind m k (r, w0)) with
    | Ok _ => fst (snd (bind m k (r, w0))) = set_tracer None r
    | Raise _ => fst (snd (bind m k (r, w0))) = r
    end).
  { intros A m k w0 Hm Hk. unfold bind. specialize (Hm (r, w0)).
    destruct (m (r, w0)) as [[a|e] [r1 w1]]; cbn [fst snd] in *.
    - subst r1. apply Hk.
    - exact Hm. }
  assert (Hself : forall (k : Robot -> M unit),
            bind get_self k (r, w) = k r (r, w)) by reflexivity.
  unfold stop_tracer. rewrite Hself.
  destruct (tracer r) as [t|] eqn:Ht.
  - do 4 (apply Hstep; [apply keeps_instance_call|intros _ ?]).
    apply Hstep; [intros ?; reflexivity|intros cls ?].
    apply Hstep; [|intros; reflexivity].
    apply keeps_instance_for_each. intros x.
    apply keeps_instance_bind;
      [apply keeps_instance_self_device|intros; apply keeps_instance_call].
  - cbn [ret fst snd]. destruct r. cbn in Ht. now subst.
Qed.

(** ** A missing device, a missing bridge *)

Section Edges.

Variable env : Env.
Hypothesis Hsucc : calls_succeed env.

Ltac run_steps :=
  repeat (first
    [ rewrite (call_run env Hsucc) by reflexivity
    | rewrite add_calls_add_calls
    | progress cbn [fst snd ret raise get_self get_class modify_self
                    modify_class app tracer device ros name set_tracer
                    set_ros set_name set_device tracedSignals
                    device_signals_names set_tracedSignals
                    set_device_signals_names
                    autoRecomputedSignals tracerSize calls add_calls
                    set_autoRecomputedSignals option_map] ]).

Lemma initialize_tracer_no_device (r : Robot) (w : World) :
  tracer r = None ->
  device r = None ->
  initialize_tracer env (r, w)
  = (Raise AttributeError,
     (set_tracer (Some the_trace) r,
      add_calls
        (create_tracer_calls (tracerSize w)
         ++ fst (resolve_log_dir env
                   (calls w ++ create_tracer_calls (tracerSize w)))
         ++ [tracer_open the_trace
               (snd (resolve_log_dir env
                       (calls w ++ create_tracer_calls (tracerSize w))))
               "dg_" ".dat"]) w)).
Proof.
  intros Ht Hd.
  unfold initialize_tracer, TracerRealTime, self_device, try_except,
    rospy_get_param_, os_path_expanduser_, time_strftime_, bind.
  cbn [get_self fst snd]. rewrite Ht.
  run_steps.
  unfold resolve_log_dir, create_tracer_calls.
  unfold call at 1. cbn [fst snd calls add_calls].
  change {| tracer_name := "trace" |} with the_trace.
  destruct (raises env _ (rospy_get_param log_dir_param)) eqn:E.
  - run_steps. rewrite Hd. unfold record_call. run_steps. reflexivity.
  - run_steps. rewrite Hd. unfold record_call. run_steps. reflexivity.
Qed.

Lemma stop_tracer_no_device (r : Robot) (w : World) (t : Tracer) :
  tracer r = Some t ->
  device r = None ->
  stop_tracer env (r, w)
  = match autoRecomputedSignals w with
    | [] =>
        (Ok tt,
         (set_tracer None r,
          add_calls [tracer_dump t; tracer_stop t; tracer_close t;
                     tracer_clear t] w))
    | _ :: _ =>
        (Raise AttributeError,
         (r,
          add_calls [tracer_dump t; tracer_stop t; tracer_close t;
                     tracer_clear t] w))
    end.
Proof.
  intros Ht Hd. unfold stop_tracer. unfold bind at 1.
  cbn [get_self fst snd]. rewrite Ht.
  do 4 (unfold bind at 1; rewrite (call_run env Hsucc) by reflexivity).
  unfold bind at 1. cbn [get_class fst snd].
  unfold bind at 1. rewrite !add_calls_add_calls.
  cbn [autoRecomputedSignals add_calls app].
  destruct (autoRecomputedSignals w) as [|s l].
  - reflexivity.
  - cbn [for_each]. unfold bind at 1. unfold bind at 1.
    unfold self_device. unfold bind at 1. cbn [get_self fst snd].
    rewrite Hd. reflexivity.
Qed.

End Edges.

(** X5: constructing a Robot without a device always raises
    [AttributeError] and never reaches the ROS bridge.  With an injected
    tracer no call at all is made.  Without one the tracer has by then been
    created, sized and opened, it is left referenced by the instance, and
    its trigger was never scheduled. *)
Theorem X5_construction_without_device
    (env : Env) (n : string) (tr : option Tracer) (w : World) :
  calls_succeed env ->
  exists r' w',
    Robot_new env n None tr w = (Raise AttributeError, (r', w')) /\
    ros r' = None /\
    match tr with
    | Some t => tracer r' = Some t /\ new_calls w w' = []
    | None =>
        tracer r' = Some the_trace /\
        (let created :=
           [TracerRealTime_new "trace";
            tracer_setBufferSize the_trace (tracerSize w)] in
         let resolved := resolve_log_dir env (calls w ++ created) in
         new_calls w w'
         = created ++ fst resolved
           ++ [tracer_open the_trace (snd resolved) "dg_" ".dat"])
    end.
Proof.
  intros Hs. destruct tr as [t|].
  - do 2 eexists. split; [reflexivity|]. split; [reflexivity|].
    split; [reflexivity|]. cbn [snd]. unfold new_calls.
    now rewrite skipn_all.
  - do 2 eexists. split.
    + unfold Robot_new, __init__.
      unfold bind at 1. cbn [modify_self fst snd].
      unfold bind at 1. cbn [modify_self fst snd].
      unfold bind at 1. cbn [ret]. unfold bind at 1.
      rewrite (initialize_tracer_no_device env Hs) by reflexivity.
      reflexivity.
    + split; [reflexivity|]. split; [reflexivity|].
      cbv zeta. now rewrite new_calls_add_calls.
Qed.

Lemma X5_construction_without_device_witness :
  calls_succeed (sample_env false) /\
  fst (Robot_new (sample_env false) "r" None None Robot_class)
  = Raise AttributeError.
Proof.
  assert (Hs : calls_succeed (sample_env false)).
  { intros h c H. discriminate H. }
  split; [exact Hs|].
  destruct (X5_construction_without_device (sample_env false) "r" None
              Robot_class Hs)
    as (r' & w' & H & _).
  now rewrite H.
Defined.

(** X6: [stop_tracer] on a Robot with a live tracer but no device dumps,
    stops, closes and clears the tracer and then, if the cleanup list is not
    empty, raises [AttributeError] at the first removal, leaving the tracer
    reference in place; with an empty cleanup list it returns normally and
    resets the reference. *)
Theorem X6_stop_tracer_without_device
    (env : Env) (r : Robot) (w : World) (t : Tracer) :
  calls_succeed env ->
  tracer r = Some t ->
  device r = None ->
  let flushed :=
    add_calls [tracer_dump t; tracer_stop t; tracer_close t; tracer_clear t]
      w in
  (autoRecomputedSignals w = [] ->
   stop_tracer env (r, w) = (Ok tt, (set_tracer None r, flushed))) /\
  (autoRecomputedSignals w <> [] ->
   stop_tracer env (r, w) = (Raise AttributeError, (r, flushed))).
Proof.
  intros Hs Ht Hd flushed. subst flushed.
  rewrite (stop_tracer_no_device env Hs r w t Ht Hd).
  destruct (autoRecomputedSignals w); split; intros H;
    try reflexivity; try discriminate H; now destruct H.
Qed.

Lemma X6_stop_tracer_without_device_witness :
  calls_succeed (sample_env false) /\
  tracer (set_device None sample_robot) = Some the_trace /\
  device (set_device None sample_robot) = None /\
  fst (stop_tracer (sample_env false)
         (set_device None sample_robot,
          set_autoRecomputedSignals ["dev.ctrl"] Robot_class))
  = Raise AttributeError.
Proof.
  assert (Hs : calls_succeed (sample_env false)).
  { intros h c H. discriminate H. }
  split; [exact Hs|]. split; [reflexivity|]. split; [reflexivity|].
  destruct (X6_stop_tracer_without_device (sample_env false)
              (set_device None sample_robot)
              (set_autoRecomputedSignals ["dev.ctrl"] Robot_class)
              the_trace Hs eq_refl eq_refl)
    as (_ & H).
  rewrite H; [reflexivity|discriminate].
Defined.

(** X7: without a topic name, [export_signal_to_ros] publishes the signal
    under its own qualified name [signal.name], on the transport topic
    ["/dg__" + signal.name]. *)
Theorem X7_export_signal_default_topic
    (env : Env) (sg : Signal) (r : Robot) (w : World) (b : Ros) :
  calls_succeed env ->
  ros r = Some b ->
  export_signal_to_ros env sg None (r, w)
  = (Ok tt,
     (r, add_calls
           [rosPublish_add (rosPublish b) "vector" (signal_name sg)
              ("/dg__" ++ signal_name sg)%string;
            rosPublish_signal (rosPublish b) (signal_name sg);
            plug sg (entity_signal env (rosPublish b) (signal_name sg))] w)).
Proof.
  intros Hs Hb. apply (export_signal_to_ros_run env Hs sg None r w b Hb).
Qed.

Lemma X7_export_signal_default_topic_witness :
  calls_succeed (sample_env false) /\
  ros sample_robot = Some {| rosPublish := "rosPublish" |} /\
  new_calls Robot_class
    (snd (snd (export_signal_to_ros (sample_env false)
                 {| signal_name := "dev::ctrl" |} None
                 (sample_robot, Robot_class))))
  = [rosPublish_add "rosPublish" "vector" "dev::ctrl" "/dg__dev::ctrl";
     rosPublish_signal "rosPublish" "dev::ctrl";
     plug {| signal_name := "dev::ctrl" |}
          {| signal_name := "rosPublish::dev::ctrl" |}].
Proof.
  assert (Hs : calls_succeed (sample_env false)).
  { intros h c H. discriminate H. }
  split; [exact Hs|]. split; [reflexivity|].
  rewrite (X7_export_signal_default_topic (sample_env false)
             {| signal_name := "dev::ctrl" |} sample_robot Robot_class
             {| rosPublish := "rosPublish" |} Hs eq_refl).
  reflexivity.
Defined.

(** X8: on an instance without a bridge ([ros] not set),
    [export_signal_to_ros] raises [AttributeError] before any call is made
    and changes nothing, in every environment; on such an instance that
    lists at least one signal name, [export_device_dg_to_ros] looks the
    first signal up and then raises [AttributeError], nothing being
    published. *)
Theorem X8_export_without_bridge
    (env : Env) (sg : Signal) (t : option string) (r : Robot) (w : World)
    (d : Device) (s : string) (names : list string) :
  ros r = None ->
  device r = Some d ->
  export_signal_to_ros env sg t (r, w) = (Raise AttributeError, (r, w)) /\
  (device_signals_names r = s :: names ->
   raises env (calls w) (device_signal (device_name d) s) = false ->
   export_device_dg_to_ros env (r, w)
   = (Raise AttributeError,
      (r, add_calls [device_signal (device_name d) s] w))).
Proof.
  intros Hr Hd.
  assert (H1 : forall sg' t' w',
    export_signal_to_ros env sg' t' (r, w') = (Raise AttributeError, (r, w'))).
  { intros sg' t' w'. unfold export_signal_to_ros, self_ros, bind.
    cbn [get_self fst snd]. now rewrite Hr. }
  split; [apply H1|].
  - intros Hn Hc. unfold export_device_dg_to_ros. unfold bind at 1.
    cbn [get_self fst snd]. rewrite Hn. cbn [for_each].
    unfold bind at 1. unfold bind at 1. unfold self_device.
    unfold bind at 1. cbn [get_self fst snd]. rewrite Hd. cbn [ret].
    unfold bind at 1. unfold call. cbn [fst snd]. rewrite Hc.
    now rewrite H1.
Qed.

Lemma X8_export_without_bridge_witness :
  ros (set_ros None sample_robot) = None /\
  device (set_ros None sample_robot) = Some sample_device /\
  export_device_dg_to_ros (sample_env false)
    (set_ros None sample_robot, Robot_class)
  = (Raise AttributeError,
     (set_ros None sample_robot,
      add_calls [device_signal "dev" "joint_positions"] Robot_class)).
Proof.
  split; [reflexivity|]. split; [reflexivity|].
  destruct (X8_export_without_bridge (sample_env false)
              {| signal_name := "x" |} None (set_ros None sample_robot)
              Robot_class sample_device "joint_positions" ["ctrl"]
              eq_refl eq_refl)
    as (_ & H).
  apply H; reflexivity.
Defined.

(** ** Construction and tracer initialisation, further *)

Ltac keeps_instance_steps :=
  repeat first
    [ apply keeps_instance_self_device
    | apply keeps_instance_bind; intros
    | apply keeps_instance_try_except
    | apply keeps_instance_call
    | intros ?; reflexivity ].

Lemma count_zero_of_forallb (p : Call -> bool) (cs : list Call) :
  forallb (fun c => negb (p c)) cs = true -> count_calls p cs = 0.
Proof.
  unfold count_calls. induction cs as [|c cs IH]; [reflexivity|].
  cbn [forallb filter]. intros H. apply andb_true_iff in H.
  destruct H as [Hc Hcs]. apply negb_true_iff in Hc. rewrite Hc. auto.
Qed.

(** X9: after construction the instance holds the name and device it was
    given and the bridge built for it, and both [tracedSignals['device']]
    and [device_signals_names] are the short names of the device's signals,
    in the device's order, duplicates included; [tracerSize] is not
    touched. *)
Theorem X9_attributes_after_construction
    (env : Env) (n : string) (d : Device) (tr : option Tracer) (w : World) :
  calls_succeed env ->
  exists r' w',
    Robot_new env n (Some d) tr w = (Ok tt, (r', w')) /\
    name r' = n /\
    device r' = Some d /\
    ros r' = Some (ros_bridge env n) /\
    Py.dict_get (tracedSignals r') "device"
    = Some (map short_name (device_signals d)) /\
    device_signals_names r' = map short_name (device_signals d) /\
    length (device_signals_names r') = length (device_signals d) /\
    tracerSize w' = tracerSize w.
Proof.
  intros Hs. do 2 eexists. split; [apply (Robot_new_run env Hs)|].
  cbn [constructed name device ros tracedSignals device_signals_names
       tracerSize].
  repeat split. now rewrite length_map.
Qed.

Lemma X9_attributes_after_construction_witness :
  calls_succeed (sample_env false) /\
  exists r' w',
    Robot_new (sample_env false) "r"
      (Some {| device_name := "dev";
               device_signals := [ {| signal_name := "A::x" |};
                                   {| signal_name := "B::x" |} ] |})
      None Robot_class
    = (Ok tt, (r', w')) /\
    device_signals_names r' = ["x"; "x"].
Proof.
  assert (Hs : calls_succeed (sample_env false)).
  { intros h c H. discriminate H. }
  split; [exact Hs|].
  destruct (X9_attributes_after_construction (sample_env false) "r"
              {| device_name := "dev";
                 device_signals := [ {| signal_name := "A::x" |};
                                     {| signal_name := "B::x" |} ] |}
              None Robot_class Hs)
    as (r' & w' & H1 & _ & _ & _ & _ & H2 & _).
  exists r', w'. split; [exact H1|]. rewrite H2. reflexivity.
Defined.

(** X10: [initialize_tracer] assigns the new tracer to [self.tracer] as soon
    as it is created, before sizing and opening it.  In every environment,
    starting without a tracer: if the creation raises, nothing changes but
    the call record; otherwise the instance ends with [tracer = 'trace'] and
    no other attribute changed, whatever happens afterwards, an exception
    included. *)
Theorem X10_tracer_assigned_on_creation
    (env : Env) (r : Robot) (w : World) :
  tracer r = None ->
  (raises env (calls w) (TracerRealTime_new "trace") = true ->
   initialize_tracer env (r, w)
   = (Raise (raised_by (TracerRealTime_new "trace")),
      (r, add_calls [TracerRealTime_new "trace"] w))) /\
  (raises env (calls w) (TracerRealTime_new "trace") = false ->
   fst (snd (initialize_tracer env (r, w)))
   = set_tracer (Some the_trace) r).
Proof.
  intros Ht.
  assert (Hself : forall (k : Robot -> M unit),
            bind get_self k (r, w) = k r (r, w)) by reflexivity.
  unfold initialize_tracer. rewrite Hself, Ht. unfold TracerRealTime.
  split; intros Hc.
  - unfold bind, call. cbn [fst snd]. now rewrite Hc.
  - unfold bind at 1. unfold bind at 1. unfold call at 1.
    cbn [fst snd]. rewrite Hc. cbn [ret]. unfold bind at 1.
    cbn [modify_self fst snd].
    change {| tracer_name := "trace" |} with the_trace.
    match goal with
    | |- fst (snd (?m (?a, ?b))) = _ =>
        assert (K : keeps_instance m);
        [|exact (K (a, b))]
    end.
    unfold rospy_get_param_, os_path_expanduser_, time_strftime_.
    keeps_instance_steps.
Qed.

Lemma X10_tracer_assigned_on_creation_witness :
  tracer (set_device (Some sample_device) fresh_Robot) = None /\
  fst (initialize_tracer (raising_env is_tracer_call)
         (set_device (Some sample_device) fresh_Robot, Robot_class))
  = Raise (raised_by (TracerRealTime_new "trace")).
Proof.
  split; [reflexivity|].
  destruct (X10_tracer_assigned_on_creation (raising_env is_tracer_call)
              (set_device (Some sample_device) fresh_Robot) Robot_class
              eq_refl)
    as (H & _).
  rewrite H; reflexivity.
Defined.

(** X11: when the lookup of ["/dynamic_graph/log_dir"] succeeds, the tracer
    is opened at the value of the parameter, and neither the home directory
    nor the clock is consulted. *)
Theorem X11_log_dir_from_parameter
    (env : Env) (r : Robot) (w : World) (d : Device) :
  calls_succeed env ->
  tracer r = None ->
  device r = Some d ->
  raises env
    (calls w ++ [TracerRealTime_new "trace";
                 tracer_setBufferSize the_trace (tracerSize w)])
    (rospy_get_param "/dynamic_graph/log_dir") = false ->
  initialize_tracer env (r, w)
  = (Ok tt,
     (set_tracer (Some the_trace) r,
      add_calls
        [TracerRealTime_new "trace";
         tracer_setBufferSize the_trace (tracerSize w);
         rospy_get_param "/dynamic_graph/log_dir";
         tracer_open the_trace (param env "/dynamic_graph/log_dir")
           "dg_" ".dat";
         after_addSignal (device_name d) "trace.triger"] w)).
Proof.
  intros Hs Ht Hd Hr.
  rewrite (initialize_tracer_run env Hs r w d Ht Hd).
  unfold initialize_tracer_calls, resolve_log_dir, create_tracer_calls,
    log_dir_param.
  cbv zeta. rewrite Hr. reflexivity.
Qed.

Lemma X11_log_dir_from_parameter_witness :
  calls_succeed (sample_env false) /\
  new_calls Robot_class
    (snd (snd (initialize_tracer (sample_env false)
                 (set_device (Some sample_device) fresh_Robot, Robot_class))))
  = [TracerRealTime_new "trace";
     tracer_setBufferSize the_trace 1048576;
     rospy_get_param "/dynamic_graph/log_dir";
     tracer_open the_trace "/tmp/logs" "dg_" ".dat";
     after_addSignal "dev" "trace.triger"].
Proof.
  assert (Hs : calls_succeed (sample_env false)).
  { intros h c H. discriminate H. }
  split; [exact Hs|].
  rewrite (X11_log_dir_from_parameter (sample_env false)
             (set_device (Some sample_device) fresh_Robot) Robot_class
             sample_device Hs eq_refl eq_refl eq_refl).
  reflexivity.
Defined.

(** X12: [initialize_tracer] is idempotent: once it has returned, a second
    run returns the same instance and world and makes no call; an instance
    that already holds a tracer is in that situation from the start. *)
Theorem X12_initialize_tracer_idempotent
    (env : Env) (r : Robot) (w : World) (d : Device) :
  calls_succeed env ->
  device r = Some d ->
  exists r1 w1,
    initialize_tracer env (r, w) = (Ok tt, (r1, w1)) /\
    tracer r1 <> None /\
    initialize_tracer env (r1, w1) = (Ok tt, (r1, w1)).
Proof.
  intros Hs Hd. destruct (tracer r) as [t|] eqn:Ht.
  - exists r, w. rewrite (initialize_tracer_skip env r w t Ht).
    repeat split. congruence.
  - do 2 eexists.
    split; [apply (initialize_tracer_run env Hs r w d Ht Hd)|].
    split; [discriminate|].
    now apply (initialize_tracer_skip env _ _ the_trace).
Qed.

Lemma X12_initialize_tracer_idempotent_witness :
  calls_succeed (sample_env true) /\
  device (set_device (Some sample_device) fresh_Robot) = Some sample_device /\
  exists r1 w1,
    initialize_tracer (sample_env true)
      (set_device (Some sample_device) fresh_Robot, Robot_class)
    = (Ok tt, (r1, w1)) /\
    initialize_tracer (sample_env true) (r1, w1) = (Ok tt, (r1, w1)).
Proof.
  assert (Hs : calls_succeed (sample_env true)).
  { intros h c H. exact H. }
  split; [exact Hs|]. split; [reflexivity|].
  destruct (X12_initialize_tracer_idempotent (sample_env true)
              (set_device (Some sample_device) fresh_Robot) Robot_class
              sample_device Hs eq_refl)
    as (r1 & w1 & H1 & _ & H2).
  exists r1, w1. split; [exact H1|exact H2].
Defined.

(** X13: after [stop_tracer], [initialize_tracer] brings a tracer back: it
    creates, sizes and opens a new tracer ['trace'] and schedules its
    trigger, whichever tracer the instance held before, an injected one
    included. *)
Theorem X13_tracer_restarts_after_stop
    (env : Env) (r : Robot) (w : World) (t : Tracer) (d : Device) :
  calls_succeed env ->
  tracer r = Some t ->
  device r = Some d ->
  exists w1 w2,
    stop_tracer env (r, w) = (Ok tt, (set_tracer None r, w1)) /\
    initialize_tracer env (set_tracer None r, w1)
    = (Ok tt, (set_tracer (Some the_trace) r, w2)) /\
    new_calls w1 w2 = initialize_tracer_calls env w1 (device_name d) /\
    (forall l, In "trace.triger"
                 (after_run (device_name d) (new_calls w1 w2) l)).
Proof.
  intros Hs Ht Hd. do 2 eexists.
  split; [apply (stop_tracer_run env Hs r w t d Ht Hd)|].
  split.
  - rewrite (initialize_tracer_run env Hs (set_tracer None r) _ d)
      by (cbn; auto).
    reflexivity.
  - rewrite new_calls_add_calls. split; [reflexivity|].
    intros l. unfold initialize_tracer_calls. rewrite !after_run_app.
    cbn [after_run fold_left after_step]. rewrite String.eqb_refl.
    apply in_after_add.
Qed.

Lemma X13_tracer_restarts_after_stop_witness :
  calls_succeed (sample_env false) /\
  exists w1 w2,
    stop_tracer (sample_env false)
      (constructed (sample_env false) "r2" other_device
         (Some injected_tracer), Robot_class)
    = (Ok tt,
       (set_tracer None
          (constructed (sample_env false) "r2" other_device
             (Some injected_tracer)), w1)) /\
    initialize_tracer (sample_env false)
      (set_tracer None
         (constructed (sample_env false) "r2" other_device
            (Some injected_tracer)), w1)
    = (Ok tt,
       (set_tracer (Some the_trace)
          (constructed (sample_env false) "r2" other_device
             (Some injected_tracer)), w2)).
Proof.
  assert (Hs : calls_succeed (sample_env false)).
  { intros h c H. discriminate H. }
  split; [exact Hs|].
  destruct (X13_tracer_restarts_after_stop (sample_env false)
              (constructed (sample_env false) "r2" other_device
                 (Some injected_tracer))
              Robot_class injected_tracer other_device Hs eq_refl eq_refl)
    as (w1 & w2 & H1 & H2 & _).
  exists w1, w2. split; [exact H1|exact H2].
Defined.

(** X14: the handler of the lookup failure is itself unprotected: when the
    lookup raises and [os.path.expanduser] raises in turn, that second
    exception leaves [initialize_tracer]; the tracer, created and sized, is
    never opened and stays referenced by the instance. *)
Theorem X14_fallback_failure_propagates
    (env : Env) (r : Robot) (w : World) :
  tracer r = None ->
  let c1 := TracerRealTime_new "trace" in
  let c2 := tracer_setBufferSize the_trace (tracerSize w) in
  let c3 := rospy_get_param "/dynamic_graph/log_dir" in
  let c4 := os_path_expanduser "~" in
  raises env (calls w) c1 = false ->
  raises env (calls w ++ [c1]) c2 = false ->
  raises env (calls w ++ [c1; c2]) c3 = true ->
  raises env (calls w ++ [c1; c2; c3]) c4 = true ->
  initialize_tracer env (r, w)
  = (Raise (raised_by c4),
     (set_tracer (Some the_trace) r, add_calls [c1; c2; c3; c4] w)).
Proof.
  intros Ht c1 c2 c3 c4 H1 H2 H3 H4.
  unfold initialize_tracer, TracerRealTime, try_except, rospy_get_param_,
    os_path_expanduser_, time_strftime_, bind, call, record_call.
  cbn [get_self fst snd]. rewrite Ht.
  cbn [fst snd calls add_calls]. fold c1. rewrite H1.
  cbn [ret modify_self get_class fst snd calls add_calls tracerSize].
  change {| tracer_name := "trace" |} with the_trace. fold c2.
  rewrite H2. cbn [fst snd calls add_calls].
  rewrite <- !app_assoc. cbn [app].
  unfold log_dir_param. fold c3. rewrite H3.
  cbn [fst snd calls add_calls]. rewrite <- !app_assoc. cbn [app].
  fold c4. rewrite H4. unfold add_calls.
  cbn [fst snd calls autoRecomputedSignals tracerSize].
  rewrite <- !app_assoc. reflexivity.
Qed.

Lemma X14_fallback_failure_propagates_witness :
  tracer (set_device (Some sample_device) fresh_Robot) = None /\
  fst (initialize_tracer
         (raising_env (fun c => is_log_dir_lookup c || is_os_path_expanduser c))
         (set_device (Some sample_device) fresh_Robot, Robot_class))
  = Raise (raised_by (os_path_expanduser "~")).
Proof.
  split; [reflexivity|].
  rewrite (X14_fallback_failure_propagates
             (raising_env
                (fun c => is_log_dir_lookup c || is_os_path_expanduser c))
             (set_device (Some sample_device) fresh_Robot) Robot_class
             eq_refl eq_refl eq_refl eq_refl eq_refl).
  reflexivity.
Defined.

(** X15: construction never removes anything from a post-step list: it
    makes no [rmSignal] call, so every name scheduled on any device before
    the construction is still scheduled after it. *)
Theorem X15_construction_removes_nothing
    (env : Env) (n : string) (d : Device) (tr : option Tracer) (w : World) :
  calls_succeed env ->
  exists r' w',
    Robot_new env n (Some d) tr w = (Ok tt, (r', w')) /\
    count_calls is_after_rmSignal (new_calls w w') = 0 /\
    (forall dev x l,
       In x l -> In x (after_run dev (new_calls w w') l)).
Proof.
  intros Hs. do 2 eexists. split; [apply (Robot_new_run env Hs)|].
  rewrite (new_calls_app w _ (construction_calls env w n d tr))
    by reflexivity.
  split.
  - apply count_zero_of_forallb, construction_calls_keep.
  - intros dev x l Hx. apply after_run_keeps; [|exact Hx].
    apply construction_calls_keep.
Qed.

Lemma X15_construction_removes_nothing_witness :
  calls_succeed (sample_env false) /\
  exists r' w',
    Robot_new (sample_env false) "r" (Some sample_device) None Robot_class
    = (Ok tt, (r', w')) /\
    In "other.signal"
       (after_run "dev" (new_calls Robot_class w') ["other.signal"]).
Proof.
  assert (Hs : calls_succeed (sample_env false)).
  { intros h c H. discriminate H. }
  split; [exact Hs|].
  destruct (X15_construction_removes_nothing (sample_env false) "r"
              sample_device None Robot_class Hs)
    as (r' & w' & H1 & _ & H2).
  exists r', w'. split; [exact H1|]. apply H2. now left.
Defined.

(** X16: [export_device_dg_to_ros] keeps no record of what it published:
    run again on a constructed Robot, it repeats, per device signal and in
    order, the lookup, the [rosPublish.add], the [rosPublish.signal] and the
    [plug] that construction already made, and leaves the instance and the
    cleanup list as they were. *)
Theorem X16_export_again_repeats_registrations
    (env : Env) (n : string) (d : Device) (tr : option Tracer) (w : World) :
  calls_succeed env ->
  let dev := device_name d in
  let pub := rosPublish (ros_bridge env n) in
  export_device_dg_to_ros env (constructed env n d tr, w)
  = (Ok tt,
     (constructed env n d tr,
      add_calls
        (flat_map
           (fun s =>
              [device_signal dev s;
               rosPublish_add pub "vector" ("device__" ++ s)%string
                 ("/dg__device__" ++ s)%string;
               rosPublish_signal pub ("device__" ++ s)%string;
               plug (entity_signal env dev s)
                    (entity_signal env pub ("device__" ++ s)%string)])
           (map short_name (device_signals d))) w)).
Proof.
  intros Hs dev pub. unfold export_device_dg_to_ros. unfold bind at 1.
  cbn [get_self fst snd constructed device_signals_names].
  apply (export_loop env Hs _ _ w (ros_bridge env n) d); reflexivity.
Qed.

Lemma X16_export_again_repeats_registrations_witness :
  calls_succeed (sample_env false) /\
  count_calls is_rosPublish_add
    (new_calls Robot_class
       (snd (snd (export_device_dg_to_ros (sample_env false)
                    (sample_robot, Robot_class))))) = 2.
Proof.
  assert (Hs : calls_succeed (sample_env false)).
  { intros h c H. discriminate H. }
  split; [exact Hs|].
  pose proof (X16_export_again_repeats_registrations (sample_env false) "r"
                sample_device None Robot_class Hs) as H.
  cbv zeta in H. unfold sample_robot. rewrite H. reflexivity.
Defined.

(** ** Short names of well-formed signal names *)

Lemma endswith_tail (c : ascii) (s suffix : string) :
  Py.endswith (String c s) suffix = false -> Py.endswith s suffix = false.
Proof.
  cbn [Py.endswith]. now destruct (String.eqb (String c s) suffix).
Qed.

Lemma has_char_app (c : ascii) (a b : string) :
  has_char c (a ++ b) = has_char c a || has_char c b.
Proof.
  induction a as [|x a IH]; [reflexivity|].
  cbn [append has_char]. now rewrite IH, orb_assoc.
Qed.

Lemma no_colon_no_separator (s : string) :
  has_char ":" s = false -> ~ occurs "::" s.
Proof.
  intros H (a & b & E). subst s. rewrite has_char_app in H.
  apply orb_false_iff in H. destruct H as [_ H]. discriminate H.
Qed.

Lemma split_without_separator (s : string) :
  ~ occurs "::" s -> Py.split_from "::" 0 s = [s].
Proof.
  intros Hno.
  destruct (split_last_piece ":" ":" s) as (l & x & E & _ & Hx).
  rewrite E. destruct Hx as [[-> ->]|[_ [pre Hpre]]]; [reflexivity|].
  destruct Hno. now exists pre, x.
Qed.

Lemma last_cons_keep (a : string) (l : list string) (x : string) :
  List.last (a :: l ++ [x]) EmptyString = x.
Proof.
  change (a :: l ++ [x]) with ((a :: l) ++ [x]). apply last_last.
Qed.

Lemma split_last_of_suffix (s : string) :
  has_char ":" s = false ->
  forall pre,
    Py.endswith pre ":" = false ->
    List.last (Py.split_from "::" 0 (pre ++ "::" ++ s)) EmptyString = s.
Proof.
  intros Hs pre.
  remember (String.length pre) as n eqn:Hn.
  revert pre Hn. induction n as [n IH] using lt_wf_ind. intros pre Hn Hend.
  destruct pre as [|c pre].
  - change (("" ++ "::" ++ s)%string) with (("::" ++ s)%string).
    rewrite (split_at_separator ":" ":" s).
    rewrite split_without_separator by now apply no_colon_no_separator.
    reflexivity.
  - assert (Hrec : forall pre',
              String.length pre' < n ->
              Py.endswith pre' ":" = false ->
              exists l,
                Py.split_from "::" 0 (pre' ++ "::" ++ s) = l ++ [s]).
    { intros pre' Hlt Hend'.
      destruct (split_last_piece ":" ":" (pre' ++ "::" ++ s))
        as (l & x & E & _).
      exists l. rewrite E. f_equal. f_equal.
      rewrite <- (IH (String.length pre') Hlt pre' eq_refl Hend').
      rewrite E. now rewrite last_last. }
    change ((String c pre ++ "::" ++ s)%string)
      with (String c (pre ++ "::" ++ s)).
    rewrite split_from_unfold.
    destruct (String.prefix "::" (String c (pre ++ "::" ++ s))) eqn:Hp.
    + apply prefix_app in Hp. destruct Hp as [b Hb].
      change (("::" ++ b)%string) with (String ":" (String ":" b)) in Hb.
      injection Hb as -> Hb.
      destruct pre as [|c' pre]; [discriminate Hend|].
      change ((String c' pre ++ "::" ++ s)%string)
        with (String c' (pre ++ "::" ++ s)) in *.
      injection Hb as -> _.
      cbn [String.length Nat.sub Py.split_from].
      destruct (Hrec pre) as [l El].
      * subst n. cbn [String.length]. lia.
      * now apply endswith_tail, endswith_tail in Hend.
      * rewrite El. apply last_cons_keep.
    + destruct (Hrec pre) as [l El].
      * subst n. cbn [String.length]. lia.
      * now apply endswith_tail in Hend.
      * rewrite El. destruct l as [|q l].
        -- exfalso.
           assert (Hwhole : Py.split_from "::" 0 (pre ++ "::" ++ s)
                            = [(pre ++ "::" ++ s)%string]).
           { destruct (split_last_piece ":" ":" (pre ++ "::" ++ s))
               as (l & x & E & Hno & Hx).
             rewrite E in El.
             assert (l = [] /\ x = s) as [-> ->].
             { destruct l as [|y l]; [now inversion El|].
               destruct l; discriminate El. }
             destruct Hx as [[_ Hx]|[Hl _]]; [|now destruct Hl].
             rewrite E. now rewrite <- Hx. }
           rewrite Hwhole in El. cbn [app] in El. injection El as El.
           apply (no_colon_no_separator s Hs). rewrite <- El.
           now exists pre, s.
        -- cbn [app]. apply last_cons_keep.
Qed.

(** X17: for a qualified name [pre + "::" + s] whose last component [s]
    holds no colon and whose prefix does not end with a colon, the short
    name is [s], however many ["::"] the prefix holds. *)
Theorem X17_short_name_of_qualified_name (pre s : string) :
  has_char ":" s = false ->
  Py.endswith pre ":" = false ->
  short_name {| signal_name := (pre ++ "::" ++ s)%string |} = s.
Proof.
  intros Hs Hpre. unfold short_name, Py.last_item, Py.split.
  cbn [signal_name]. now apply split_last_of_suffix.
Qed.

Lemma X17_short_name_of_qualified_name_witness :
  has_char ":" "joint_positions" = false /\
  Py.endswith "Device(dev)::output(vector)" ":" = false /\
  short_name
    {| signal_name := "Device(dev)::output(vector)::joint_positions" |}
  = "joint_positions".
Proof.
  split; [reflexivity|]. split; [reflexivity|].
  apply (X17_short_name_of_qualified_name "Device(dev)::output(vector)"
           "joint_positions"); reflexivity.
Defined.

(** X18: taking the short name is idempotent: a short name holds no
    separator, so the short name of a signal named by a short name is that
    name.  In particular a name without ["::"] is its own short name. *)
Theorem X18_short_name_idempotent (sg : Signal) :
  short_name {| signal_name := short_name sg |} = short_name sg.
Proof.
  destruct (short_name_spec sg) as (Hno & _).
  destruct (short_name_spec {| signal_name := short_name sg |})
    as (_ & H & _).
  now apply H.
Qed.
